(** * Streaming transcription session engine

    A shallow embedding of the per-connection session engine of the
    streaming speech-to-text service:

    - [api/stt_streaming/src/client.py]                      (class [Client])
    - [api/stt_streaming/src/buffering_strategy/buffering_strategies.py]
                                                   (class [SilenceAtEndOfChunk])
    - [api/stt_streaming/src/vad/simple_vad.py]              (class [SimpleVAD])
    - [api/streaming_asr.py]             (admission in [streaming_stt_recognization])

    Conventions of the embedding.

    - A [bytearray] is a [list byte]; [len] is [length].
    - Python [float] seconds are exact rationals ([Q]); [int(x)] truncates
      towards zero and [round(x, 3)] rounds half to even, both on the exact
      value.  A division by a zero integer raises [ZeroDivisionError].
    - [time.time()] is an input of every step: the step that reads the clock
      receives the reading as its argument [now].
    - Python objects that are shared by reference (the strategy objects, which
      the tasks they spawned keep alive as [self]) live in a store and are
      referred to by their index.
    - A coroutine started with [asyncio.create_task] is a record in the list of
      tasks of the session; it advances from one [await] to the next when the
      event loop resumes it, with the outcome of the awaited call as input. *)

From Stdlib Require Import ZArith QArith Qround Lqa List String Bool Lia.
From Stdlib Require Import Strings.Byte.
From Stdlib Require Import Strings.Ascii DecimalString DecimalN DecimalZ.
From stdpp Require Import base list.
Import ListNotations.

Open Scope Q_scope.

(** ** Python numerics *)

Module Py.

(** [a < b] on floats. *)
Definition ltb (a b : Q) : bool := negb (Qle_bool b a).

(** [int(x)]: truncation towards zero. *)
Definition int (x : Q) : Z := Z.quot (Qnum x) (Zpos (Qden x)).

(** Nearest integer, ties to the even one (the rounding of [round]). *)
Definition round_half_even (x : Q) : Z :=
  let f := Qfloor x in
  let r := x - inject_Z f in
  if ltb r (1 # 2) then f
  else if ltb (1 # 2) r then (f + 1)%Z
  else if Z.even f then f else (f + 1)%Z.

(** [round(x, 3)]. *)
Definition round3 (x : Q) : Q := round_half_even (x * 1000) # 1000.

(** [n / d] for two integers: true division, raising on a zero divisor. *)
Definition truediv (n d : Z) : option Q :=
  if (d =? 0)%Z then None else Some (inject_Z n / inject_Z d).

(** [len(b)] as an integer. *)
Definition len {A} (b : list A) : Z := Z.of_nat (length b).

End Py.

(** ** Exceptions and results *)

Inductive exn : Type :=
| TypeError
| ValueError
| ZeroDivisionError
| CollaboratorError (what : string).

(** The outcome of a call that works on a state [S]: it returns a value, or
    it raises; in both cases the state holds the mutations made so far. *)
Inductive result (S A : Type) : Type :=
| Returns (a : A) (s : S)
| Raises (e : exn) (s : S).
Arguments Returns {S A} a s.
Arguments Raises {S A} e s.

(** ** Data model *)

(** The [processing_args] dictionary: the keys the strategy reads. *)
Record ProcessingArgs : Type := {
  pa_chunk_length_seconds : option Q;
  pa_chunk_offset_seconds : option Q;
  pa_error_if_not_realtime : option bool }.

Record Config : Type := {
  language : option string;
  processing_strategy : string;
  processing_args : ProcessingArgs }.

(** The dictionary handed to [Client.update_config]: absent keys are [None]. *)
Record ConfigData : Type := {
  cd_language : option string;
  cd_processing_strategy : option string;
  cd_processing_args : option ProcessingArgs }.

(** The process environment: the variables the strategy constructor reads,
    [None] when unset or empty. *)
Record Environ : Type := {
  BUFFERING_CHUNK_LENGTH_SECONDS : option Q;
  BUFFERING_CHUNK_OFFSET_SECONDS : option Q;
  ERROR_IF_NOT_REALTIME : option bool }.

(** One entry of a detector's answer: [{"start", "end", "confidence"}]. *)
Record Interval : Type := {
  iv_start : Q;
  iv_end : Q;
  iv_confidence : Q }.

(** The dictionary a recogniser returns: the key ["text"] may be missing;
    ["duration"] is [None] when the recogniser found no end time, and adding
    it to a number then raises [TypeError]. *)
Record Transcription : Type := {
  tr_text : option string;
  tr_duration : option Q }.

(** The single entry of [payload["result"]], with the envelope. *)
Record Payload : Type := {
  p_id : string;
  p_code : Z;
  p_message : string;
  p_segment : Z;
  p_transcript : string;
  p_final : Z;
  p_startTime : Q;
  p_endTime : Q }.

Module Strategy.
(** An object of class [SilenceAtEndOfChunk]. *)
Record t : Type := {
  chunk_length_seconds : Q;
  chunk_offset_seconds : Q;
  error_if_not_realtime : bool;
  processing_flag : bool;
  start_time : option Q }.

Definition set_processing_flag (b : bool) (s : t) : t :=
  {| chunk_length_seconds := chunk_length_seconds s;
     chunk_offset_seconds := chunk_offset_seconds s;
     error_if_not_realtime := error_if_not_realtime s;
     processing_flag := b;
     start_time := start_time s |}.

Definition set_start_time (v : option Q) (s : t) : t :=
  {| chunk_length_seconds := chunk_length_seconds s;
     chunk_offset_seconds := chunk_offset_seconds s;
     error_if_not_realtime := error_if_not_realtime s;
     processing_flag := processing_flag s;
     start_time := v |}.
End Strategy.

Module Client.
(** An object of class [Client]; [buffering_strategy] is a reference into the
    store of strategy objects. *)
Record t : Type := {
  client_id : string;
  buffer : list byte;
  scratch_buffer : list byte;
  session_audio_buffer : list byte;
  config : Config;
  file_counter : nat;
  chunk_save_counter : nat;
  total_samples : Q;
  sampling_rate : Z;
  samples_width : Z;
  buffering_strategy : nat;
  connect_time : option Q;
  job_id : string;
  last_start_time : Q;
  start_time : Q;
  transcript : list Payload;
  connection_id : option string }.

Definition with_buffers (b sb sab : list byte) (ts : Q) (c : t) : t :=
  {| client_id := client_id c; buffer := b; scratch_buffer := sb;
     session_audio_buffer := sab; config := config c;
     file_counter := file_counter c;
     chunk_save_counter := chunk_save_counter c; total_samples := ts;
     sampling_rate := sampling_rate c; samples_width := samples_width c;
     buffering_strategy := buffering_strategy c;
     connect_time := connect_time c; job_id := job_id c;
     last_start_time := last_start_time c; start_time := start_time c;
     transcript := transcript c; connection_id := connection_id c |}.

Definition set_buffer (b : list byte) (c : t) : t :=
  with_buffers b (scratch_buffer c) (session_audio_buffer c) (total_samples c) c.

Definition set_scratch_buffer (sb : list byte) (c : t) : t :=
  with_buffers (buffer c) sb (session_audio_buffer c) (total_samples c) c.

Definition set_config (cfg : Config) (i : nat) (c : t) : t :=
  {| client_id := client_id c; buffer := buffer c;
     scratch_buffer := scratch_buffer c;
     session_audio_buffer := session_audio_buffer c; config := cfg;
     file_counter := file_counter c;
     chunk_save_counter := chunk_save_counter c;
     total_samples := total_samples c;
     sampling_rate := sampling_rate c; samples_width := samples_width c;
     buffering_strategy := i;
     connect_time := connect_time c; job_id := job_id c;
     last_start_time := last_start_time c; start_time := start_time c;
     transcript := transcript c; connection_id := connection_id c |}.

Definition set_sampling_rate (r : Z) (c : t) : t :=
  {| client_id := client_id c; buffer := buffer c;
     scratch_buffer := scratch_buffer c;
     session_audio_buffer := session_audio_buffer c; config := config c;
     file_counter := file_counter c;
     chunk_save_counter := chunk_save_counter c;
     total_samples := total_samples c;
     sampling_rate := r; samples_width := samples_width c;
     buffering_strategy := buffering_strategy c;
     connect_time := connect_time c; job_id := job_id c;
     last_start_time := last_start_time c; start_time := start_time c;
     transcript := transcript c; connection_id := connection_id c |}.

Definition set_connect_time (v : option Q) (c : t) : t :=
  {| client_id := client_id c; buffer := buffer c;
     scratch_buffer := scratch_buffer c;
     session_audio_buffer := session_audio_buffer c; config := config c;
     file_counter := file_counter c;
     chunk_save_counter := chunk_save_counter c;
     total_samples := total_samples c;
     sampling_rate := sampling_rate c; samples_width := samples_width c;
     buffering_strategy := buffering_strategy c;
     connect_time := v; job_id := job_id c;
     last_start_time := last_start_time c; start_time := start_time c;
     transcript := transcript c; connection_id := connection_id c |}.

Definition set_connection_id (v : option string) (c : t) : t :=
  {| client_id := client_id c; buffer := buffer c;
     scratch_buffer := scratch_buffer c;
     session_audio_buffer := session_audio_buffer c; config := config c;
     file_counter := file_counter c;
     chunk_save_counter := chunk_save_counter c;
     total_samples := total_samples c;
     sampling_rate := sampling_rate c; samples_width := samples_width c;
     buffering_strategy := buffering_strategy c;
     connect_time := connect_time c; job_id := job_id c;
     last_start_time := last_start_time c; start_time := start_time c;
     transcript := transcript c; connection_id := v |}.

(** [self.transcript.append(payload)] *)
Definition append_transcript (p : Payload) (c : t) : t :=
  {| client_id := client_id c; buffer := buffer c;
     scratch_buffer := scratch_buffer c;
     session_audio_buffer := session_audio_buffer c; config := config c;
     file_counter := file_counter c;
     chunk_save_counter := chunk_save_counter c;
     total_samples := total_samples c;
     sampling_rate := sampling_rate c; samples_width := samples_width c;
     buffering_strategy := buffering_strategy c;
     connect_time := connect_time c; job_id := job_id c;
     last_start_time := last_start_time c; start_time := start_time c;
     transcript := transcript c ++ [p]; connection_id := connection_id c |}.

(** [Client.increment_file_counter] *)
Definition increment_file_counter (c : t) : t :=
  {| client_id := client_id c; buffer := buffer c;
     scratch_buffer := scratch_buffer c;
     session_audio_buffer := session_audio_buffer c; config := config c;
     file_counter := S (file_counter c);
     chunk_save_counter := chunk_save_counter c;
     total_samples := total_samples c;
     sampling_rate := sampling_rate c; samples_width := samples_width c;
     buffering_strategy := buffering_strategy c;
     connect_time := connect_time c; job_id := job_id c;
     last_start_time := last_start_time c; start_time := start_time c;
     transcript := transcript c; connection_id := connection_id c |}.

(** [Client.clear_buffer] *)
Definition clear_buffer (c : t) : t := set_buffer [] c.

(** [Client.append_audio_data]: both buffers are extended before the
    sample count is updated, so a zero [samples_width] raises with the
    bytes already appended. *)
Definition append_audio_data (audio_data : list byte) (c : t) : result t unit :=
  let c1 := with_buffers (buffer c ++ audio_data) (scratch_buffer c)
              (session_audio_buffer c ++ audio_data) (total_samples c) c in
  match Py.truediv (Py.len audio_data) (samples_width c) with
  | None => Raises ZeroDivisionError c1
  | Some n =>
      Returns tt (with_buffers (buffer c1) (scratch_buffer c1)
                    (session_audio_buffer c1) (total_samples c + n) c1)
  end.
End Client.

(** ** Construction of strategies and clients *)

(** [x = os.environ.get(NAME)], then [if not x: x = kwargs.get(key)]. *)
Definition env_or_kwarg {A} (env kw : option A) : option A :=
  match env with
  | Some v => Some v
  | None => kw
  end.

(** [float(x)]: raises [TypeError] on [None]. *)
Definition float_of (x : option Q) : Q + exn :=
  match x with
  | Some v => inl v
  | None => inr TypeError
  end.

(** [SilenceAtEndOfChunk.__init__]: the new object, or the exception of the
    first [float(None)]. *)
Definition SilenceAtEndOfChunk_init (env : Environ) (kwargs : ProcessingArgs)
  : Strategy.t + exn :=
  match float_of (env_or_kwarg (BUFFERING_CHUNK_LENGTH_SECONDS env)
                               (pa_chunk_length_seconds kwargs)) with
  | inr e => inr e
  | inl len_s =>
      match float_of (env_or_kwarg (BUFFERING_CHUNK_OFFSET_SECONDS env)
                                   (pa_chunk_offset_seconds kwargs)) with
      | inr e => inr e
      | inl off_s =>
          inl {| Strategy.chunk_length_seconds := len_s;
                 Strategy.chunk_offset_seconds := off_s;
                 Strategy.error_if_not_realtime :=
                   match env_or_kwarg (ERROR_IF_NOT_REALTIME env)
                                      (pa_error_if_not_realtime kwargs) with
                   | Some b => b
                   | None => false
                   end;
                 Strategy.processing_flag := false;
                 Strategy.start_time := None |}
      end
  end.

(** Modelled from the spec: [BufferingStrategyFactory.create_buffering_strategy]
    (module [buffering_strategy_factory]) is not among the sources.  The spec
    only says that replacing the configuration rebuilds the segmentation
    strategy; the one strategy class of the sources is built for its
    registered name and any other name is refused with [ValueError]. *)
Definition create_buffering_strategy (env : Environ) (type : string)
    (kwargs : ProcessingArgs) : Strategy.t + exn :=
  if String.eqb type "silence_at_end_of_chunk"
  then SilenceAtEndOfChunk_init env kwargs
  else inr ValueError.

(** The configuration every client starts with. *)
Definition default_config : Config :=
  {| language := None;
     processing_strategy := "silence_at_end_of_chunk";
     processing_args :=
       {| pa_chunk_length_seconds := Some (15 # 10);
          pa_chunk_offset_seconds := Some (1 # 10);
          pa_error_if_not_realtime := None |} |}.

(** [self.config.update(config_data)] *)
Definition config_update (cfg : Config) (d : ConfigData) : Config :=
  {| language :=
       match cd_language d with Some l => Some l | None => language cfg end;
     processing_strategy :=
       match cd_processing_strategy d with
       | Some s => s
       | None => processing_strategy cfg
       end;
     processing_args :=
       match cd_processing_args d with
       | Some a => a
       | None => processing_args cfg
       end |}.

(** ** The session: one client, its strategy objects and its tasks *)

(** Where a task of [process_audio_async] stands. *)
Inductive pc : Type :=
| Created
| AwaitVad (start_process_time start_transcribe_time : Q)
| AwaitAsr (start_process_time start_transcribe_time : Q)
| AwaitSend (payload : Payload) (transcription : Transcription)
| Finished
| Failed (e : exn).

(** A task made by [asyncio.create_task(self.process_audio_async(...))]:
    the strategy object it is bound to and its two time arguments. *)
Record Task : Type := {
  task_self : nat;
  task_start_time : Q;
  task_default_start_time : Q;
  task_pc : pc }.

Definition set_pc (p : pc) (t : Task) : Task :=
  {| task_self := task_self t; task_start_time := task_start_time t;
     task_default_start_time := task_default_start_time t; task_pc := p |}.

Definition in_flight (t : Task) : bool :=
  match task_pc t with
  | Finished | Failed _ => false
  | _ => true
  end.

(** The two kinds of socket the strategy supports: Starlette's (with
    [send_text] and [send_json]) and the [websockets] library's ([send]). *)
Inductive ws_kind : Type := Starlette | Websockets.

(** What goes out on the socket. *)
Inductive Frame : Type :=
| ResultText (p : Payload)
| ResultJson (t : Transcription)
| ConfigAck
| AudioAck (buffer_bytes : Z).

Inductive LogRecord : Type :=
| Warning (msg : string)
| Info (msg : string)
| Error (msg : string).

Definition overlap_warning : string :=
  "Error in realtime processing: tried processing a new chunk while the previous one was still being processed".

Record session : Type := {
  environ : Environ;
  client : Client.t;
  strategies : list Strategy.t;
  tasks : list Task;
  websocket : ws_kind;
  pipelines : bool;
  receiving : bool;
  sent : list Frame;
  transcribed : list (list byte);
  log : list LogRecord }.

Definition set_client (c : Client.t) (w : session) : session :=
  {| environ := environ w; client := c; strategies := strategies w;
     tasks := tasks w; websocket := websocket w; pipelines := pipelines w;
     receiving := receiving w; sent := sent w; transcribed := transcribed w;
     log := log w |}.

Definition set_strategies (l : list Strategy.t) (w : session) : session :=
  {| environ := environ w; client := client w; strategies := l;
     tasks := tasks w; websocket := websocket w; pipelines := pipelines w;
     receiving := receiving w; sent := sent w; transcribed := transcribed w;
     log := log w |}.

Definition set_tasks (l : list Task) (w : session) : session :=
  {| environ := environ w; client := client w; strategies := strategies w;
     tasks := l; websocket := websocket w; pipelines := pipelines w;
     receiving := receiving w; sent := sent w; transcribed := transcribed w;
     log := log w |}.

Definition stop_receiving (w : session) : session :=
  {| environ := environ w; client := client w; strategies := strategies w;
     tasks := tasks w; websocket := websocket w; pipelines := pipelines w;
     receiving := false; sent := sent w; transcribed := transcribed w;
     log := log w |}.

Definition send (f : Frame) (w : session) : session :=
  {| environ := environ w; client := client w; strategies := strategies w;
     tasks := tasks w; websocket := websocket w; pipelines := pipelines w;
     receiving := receiving w; sent := sent w ++ [f];
     transcribed := transcribed w; log := log w |}.

(** The recogniser is handed the working buffer as it is at the call. *)
Definition call_transcribe (w : session) : session :=
  {| environ := environ w; client := client w; strategies := strategies w;
     tasks := tasks w; websocket := websocket w; pipelines := pipelines w;
     receiving := receiving w; sent := sent w;
     transcribed := transcribed w ++ [Client.scratch_buffer (client w)];
     log := log w |}.

Definition logging (r : LogRecord) (w : session) : session :=
  {| environ := environ w; client := client w; strategies := strategies w;
     tasks := tasks w; websocket := websocket w; pipelines := pipelines w;
     receiving := receiving w; sent := sent w; transcribed := transcribed w;
     log := log w ++ [r] |}.

(** Update of the strategy object at reference [i]. *)
Definition update_strategy (i : nat) (f : Strategy.t -> Strategy.t)
    (w : session) : session :=
  match strategies w !! i with
  | Some s => set_strategies (<[i := f s]> (strategies w)) w
  | None => w
  end.

Definition update_task (i : nat) (p : pc) (w : session) : session :=
  match tasks w !! i with
  | Some t => set_tasks (<[i := set_pc p t]> (tasks w)) w
  | None => w
  end.

(** [Client.__init__], with the clock reading [now] for [self.start_time]. *)
Definition Client_init (env : Environ) (client_id : string)
    (sampling_rate samples_width : Z) (job_id : string) (last_start_time : Q)
    (transcript : option (list Payload)) (now : Q)
  : (Client.t * Strategy.t) + exn :=
  match create_buffering_strategy env (processing_strategy default_config)
          (processing_args default_config) with
  | inr e => inr e
  | inl s =>
      inl ({| Client.client_id := client_id;
              Client.buffer := [];
              Client.scratch_buffer := [];
              Client.session_audio_buffer := [];
              Client.config := default_config;
              Client.file_counter := 0;
              Client.chunk_save_counter := 0;
              Client.total_samples := 0;
              Client.sampling_rate := sampling_rate;
              Client.samples_width := samples_width;
              Client.buffering_strategy := 0%nat;
              Client.connect_time := None;
              Client.job_id := job_id;
              Client.last_start_time := last_start_time;
              Client.start_time := now;
              Client.transcript :=
                match transcript with Some l => l | None => [] end;
              Client.connection_id := None |}, s)
  end.

(** [Client.update_config]: the configuration is merged first; the strategy
    reference is replaced only when the factory returns. *)
Definition update_config (config_data : ConfigData) (w : session)
  : result session unit :=
  let cfg := config_update (Client.config (client w)) config_data in
  let c1 := Client.set_config cfg (Client.buffering_strategy (client w))
              (client w) in
  match create_buffering_strategy (environ w) (processing_strategy cfg)
          (processing_args cfg) with
  | inr e => Raises e (set_client c1 w)
  | inl s =>
      let i := length (strategies w) in
      Returns tt
        (set_strategies (strategies w ++ [s])
           (set_client (Client.set_config cfg i (client w)) w))
  end.

(** ** [SilenceAtEndOfChunk.process_audio] *)

(** [chunk_length_in_bytes] *)
Definition chunk_length_in_bytes (self : Strategy.t) (c : Client.t) : Q :=
  Strategy.chunk_length_seconds self * inject_Z (Client.sampling_rate c)
  * inject_Z (Client.samples_width c).

(** [len(self.client.buffer) > chunk_length_in_bytes] *)
Definition exceeds_chunk (self : Strategy.t) (c : Client.t) : bool :=
  Py.ltb (chunk_length_in_bytes self c) (inject_Z (Py.len (Client.buffer c))).

(** The call [self.process_audio(websocket, vad_pipeline, asr_pipeline)] on
    the strategy object at reference [i], with the clock reading [now]. *)
Definition process_audio (i : nat) (now : Q) (w : session) : session :=
  match strategies w !! i with
  | None => w
  | Some self =>
      let c := client w in
      let c1 :=
        match Client.connect_time c with
        | None =>
            if (0 <? Py.len (Client.buffer c))%Z
            then Client.set_connect_time (Some now) c else c
        | Some _ => c
        end in
      let st := match Strategy.start_time self with
                | Some v => v
                | None => now
                end in
      if exceeds_chunk self c1 then
        let w1 := if Strategy.processing_flag self
                  then logging (Warning overlap_warning) w else w in
        let c2 := Client.set_buffer []
                    (Client.set_scratch_buffer
                       (Client.scratch_buffer c1 ++ Client.buffer c1) c1) in
        let task := {| task_self := i; task_start_time := st;
                       task_default_start_time := Client.last_start_time c1;
                       task_pc := Created |} in
        update_strategy i
          (fun s => Strategy.set_start_time None
                      (Strategy.set_processing_flag true s))
          (set_tasks (tasks w1 ++ [task]) (set_client c2 w1))
      else
        update_strategy i (Strategy.set_start_time (Some st)) (set_client c1 w)
  end.

(** [Client.process_audio]: the call goes to the current strategy object. *)
Definition Client_process_audio (now : Q) (w : session) : session :=
  process_audio (Client.buffering_strategy (client w)) now w.

(** ** [SilenceAtEndOfChunk.process_audio_async], from await to await *)

Inductive vad_outcome : Type :=
| VadReturns (vad_results : list Interval)
| VadRaises (e : exn).

Inductive asr_outcome : Type :=
| AsrReturns (transcription : option Transcription)
| AsrRaises (e : exn).

Inductive send_outcome : Type :=
| SendOk
| SendRaises (e : exn).

(** [last_segment_should_end_before] *)
Definition last_segment_should_end_before (self : Strategy.t) (c : Client.t)
  : option Q :=
  match Py.truediv (Py.len (Client.scratch_buffer c))
          (Client.sampling_rate c * Client.samples_width c) with
  | None => None
  | Some d => Some (d - Strategy.chunk_offset_seconds self)
  end.

(** The condition guarding the call of the recogniser. *)
Definition should_transcribe (last_end cutoff : Q) : bool :=
  Py.ltb last_end cutoff || Py.ltb 2 cutoff.

(** The last three statements of the coroutine's recognition branch and its
    last line. *)
Definition finish_chunk (k : nat) (self_ref : nat) (w : session) : session :=
  update_task k Finished
    (update_strategy self_ref (Strategy.set_processing_flag false)
       (set_client
          (Client.increment_file_counter
             (Client.set_scratch_buffer [] (client w))) w)).

(** From the start of the coroutine to [await vad_pipeline.detect_activity]. *)
Definition process_audio_async_start (k : nat) (now : Q) (w : session)
  : option session :=
  match tasks w !! k with
  | Some t =>
      match task_pc t with
      | Created =>
          match Client.connect_time (client w) with
          | None => Some (update_task k (Failed TypeError) w)
          | Some ct =>
              let start_transcribe_time :=
                inject_Z (Py.int (task_start_time t - ct))
                + task_default_start_time t in
              Some (update_task k (AwaitVad now start_transcribe_time) w)
          end
      | _ => None
      end
  | None => None
  end.

(** From the detector's answer to [await asr_pipeline.transcribe] or the
    end of the coroutine. *)
Definition process_audio_async_vad (k : nat) (o : vad_outcome) (w : session)
  : option session :=
  match tasks w !! k with
  | Some t =>
      match task_pc t, strategies w !! task_self t with
      | AwaitVad spt stt, Some self =>
          match o with
          | VadRaises e => Some (update_task k (Failed e) w)
          | VadReturns vad_results =>
              match last vad_results with
              | None =>
                  Some (update_task k Finished
                          (update_strategy (task_self t)
                             (Strategy.set_processing_flag false)
                             (set_client
                                (Client.set_buffer []
                                   (Client.set_scratch_buffer [] (client w)))
                                w)))
              | Some iv =>
                  match last_segment_should_end_before self (client w) with
                  | None => Some (update_task k (Failed ZeroDivisionError) w)
                  | Some cutoff =>
                      if should_transcribe (iv_end iv) cutoff
                      then Some (update_task k (AwaitAsr spt stt)
                                   (call_transcribe w))
                      else Some (update_task k Finished
                                   (update_strategy (task_self t)
                                      (Strategy.set_processing_flag false) w))
                  end
              end
          end
      | _, _ => None
      end
  | None => None
  end.

(** [connection_id], with the fresh UUID used when the client has none. *)
Definition payload_id (c : Client.t) (uuid4 : string) : string :=
  match Client.connection_id c with
  | Some s => if String.eqb s "" then uuid4 else s
  | None => uuid4
  end.

(** The [payload] dictionary built from a transcription with text and
    duration. *)
Definition make_payload (c : Client.t) (uuid4 text : string)
    (start_transcribe_time duration : Q) : Payload :=
  {| p_id := payload_id c uuid4;
     p_code := 200;
     p_message := "轉譯成功";
     p_segment := 0;
     p_transcript := text;
     p_final := 1;
     p_startTime := Py.round3 start_transcribe_time;
     p_endTime := Py.round3 (start_transcribe_time + duration) |}.

(** From the recogniser's answer to the [await] of the send, or to the end
    of the coroutine when there is nothing to send. *)
Definition process_audio_async_asr (k : nat) (o : asr_outcome) (now : Q)
    (uuid4 : string) (w : session) : option session :=
  match tasks w !! k with
  | Some t =>
      match task_pc t with
      | AwaitAsr spt stt =>
          match o with
          | AsrRaises e => Some (update_task k (Failed e) w)
          | AsrReturns (Some tr) =>
              match tr_text tr with
              | Some text =>
                  let w1 := update_strategy (task_self t)
                              (Strategy.set_start_time (Some now)) w in
                  match tr_duration tr with
                  | None => Some (update_task k (Failed TypeError) w1)
                  | Some duration =>
                      Some (update_task k
                              (AwaitSend
                                 (make_payload (client w) uuid4 text stt
                                    duration) tr) w1)
                  end
              | None => Some (finish_chunk k (task_self t) w)
              end
          | AsrReturns None => Some (finish_chunk k (task_self t) w)
          end
      | _ => None
      end
  | None => None
  end.

(** What follows a successful send of frame [f]: the payload is recorded,
    the text logged, and the chunk finished. *)
Definition after_send (k : nat) (t : Task) (payload : Payload) (f : Frame)
    (w : session) : session :=
  finish_chunk k (task_self t)
    (logging (Info (p_transcript payload))
       (set_client (Client.append_transcript payload (client w)) (send f w))).

(** The sending block: [first] is the outcome of the first attempt, [second]
    that of the attempt made after a [TypeError]. *)
Definition process_audio_async_send (k : nat) (first second : send_outcome)
    (w : session) : option session :=
  match tasks w !! k with
  | Some t =>
      match task_pc t with
      | AwaitSend payload tr =>
          match first with
          | SendOk => Some (after_send k t payload (ResultText payload) w)
          | SendRaises TypeError =>
              match second with
              | SendOk =>
                  Some (after_send k t payload
                          match websocket w with
                          | Starlette => ResultJson tr
                          | Websockets => ResultText payload
                          end w)
              | SendRaises e => Some (update_task k (Failed e) w)
              end
          | SendRaises e => Some (update_task k (Failed e) w)
          end
      | _ => None
      end
  | None => None
  end.

(** ** [SimpleVAD] *)

Module SimpleVAD.

(** [SimpleVAD.detect_activity] for a detector built with [min_duration]. *)
Definition detect_activity (min_duration : Q) (c : Client.t) : vad_outcome :=
  if (Py.len (Client.scratch_buffer c) =? 0)%Z then VadReturns []
  else
    match Py.truediv (Py.len (Client.scratch_buffer c))
            (Client.sampling_rate c * Client.samples_width c) with
    | None => VadRaises ZeroDivisionError
    | Some audio_duration =>
        if Py.ltb audio_duration min_duration then VadReturns []
        else VadReturns [ {| iv_start := 0; iv_end := audio_duration;
                             iv_confidence := 1 |} ]
    end.

(** The value the service constructs its detector with. *)
Definition default_min_duration : Q := 1 # 10.

End SimpleVAD.

(** ** The receive loop and the event loop *)

(** How a suspended task is resumed: with the clock reading or the outcome
    of the call it awaited. *)
Inductive resumption : Type :=
| Start (now : Q)
| VadDone (o : vad_outcome)
| AsrDone (o : asr_outcome) (now : Q) (uuid4 : string)
| SendDone (first second : send_outcome).

Inductive event : Type :=
| BinaryFrame (now : Q) (audio_chunk : list byte)
| ConfigFrame (config_update : ConfigData) (sampleRate : option Z)
| Resume (k : nat) (r : resumption).

Definition config_data_empty (d : ConfigData) : bool :=
  match cd_language d, cd_processing_strategy d, cd_processing_args d with
  | None, None, None => true
  | _, _, _ => false
  end.

(** One turn of the loop of [handle_audio] on an audio frame. *)
Definition handle_binary (now : Q) (audio_chunk : list byte) (w : session)
  : session :=
  let appended :=
    match audio_chunk with
    | [] => Returns tt (client w)
    | _ => Client.append_audio_data audio_chunk (client w)
    end in
  match appended with
  | Raises _ c => stop_receiving (set_client c w)
  | Returns _ c =>
      let w1 := set_client c w in
      if pipelines w1 then Client_process_audio now w1
      else send (AudioAck (Py.len (Client.buffer c))) w1
  end.

(** One turn of the loop of [handle_audio] on a configuration message. *)
Definition handle_config (d : ConfigData) (sampleRate : option Z)
    (w : session) : session :=
  let updated :=
    if config_data_empty d then Returns tt w else update_config d w in
  match updated with
  | Raises _ w1 => stop_receiving w1
  | Returns _ w1 =>
      let w2 :=
        match sampleRate with
        | Some r => set_client (Client.set_sampling_rate r (client w1)) w1
        | None => w1
        end in
      send ConfigAck w2
  end.

Definition resume (k : nat) (r : resumption) (w : session) : option session :=
  match r with
  | Start now => process_audio_async_start k now w
  | VadDone o => process_audio_async_vad k o w
  | AsrDone o now uuid4 => process_audio_async_asr k o now uuid4 w
  | SendDone first second => process_audio_async_send k first second w
  end.

(** One step of the session; [None] when the event cannot happen in [w]
    (a frame after the receive loop has ended, a resumption that does not
    match the await the task is suspended on). *)
Definition step (w : session) (e : event) : option session :=
  match e with
  | BinaryFrame now audio_chunk =>
      if receiving w then Some (handle_binary now audio_chunk w) else None
  | ConfigFrame d sampleRate =>
      if receiving w then Some (handle_config d sampleRate w) else None
  | Resume k r => resume k r w
  end.

Fixpoint run (w : session) (es : list event) : option session :=
  match es with
  | [] => Some w
  | e :: es' =>
      match step w e with
      | Some w' => run w' es'
      | None => None
      end
  end.

(** The session as [streaming_stt_recognization] creates it: a client at
    16 kHz, 16-bit samples, offset 0, with the connection id attached. *)
Definition no_environ : Environ :=
  {| BUFFERING_CHUNK_LENGTH_SECONDS := None;
     BUFFERING_CHUNK_OFFSET_SECONDS := None;
     ERROR_IF_NOT_REALTIME := None |}.

Definition new_session (env : Environ) (user_id job_id connection_id : string)
    (sampling_rate samples_width : Z) (last_start_time now : Q)
  : option session :=
  match Client_init env user_id sampling_rate samples_width job_id
          last_start_time (Some []) now with
  | inl (c, s) =>
      Some {| environ := env;
              client := Client.set_connection_id (Some connection_id) c;
              strategies := [s];
              tasks := [];
              websocket := Starlette;
              pipelines := true;
              receiving := true;
              sent := [];
              transcribed := [];
              log := [] |}
  | inr _ => None
  end.

(** ** Admission: [streaming_stt_recognization] up to the receive loop *)

Module Admission.

Record Response : Type := {
  code : Z;
  description : string }.

Module ResponseCode.
Definition SUCCESS : Z := 200.
Definition BAD_REQUEST : Z := 400.
Definition UNAUTHORIZED : Z := 401.
Definition TIMEOUT : Z := 408.
End ResponseCode.

Record Settings : Type := { max_streaming_count : nat }.

(** [settings = Settings()] *)
Definition settings : Settings := {| max_streaming_count := 10 |}.

(** What the handler does with the socket and the loop, in order. *)
Inductive action : Type :=
| accept
| create_task_send_text (r : Response)
| send_text_starting (connection_id : string)
| create_task_notify_ready (connection_id : string) (task_id : Z)
| handle_audio (w : session).

(** [_send_error_and_close]: the answer is built with [BAD_REQUEST] and its
    sending is scheduled. *)
Definition _send_error_and_close (error_message : string) : list action :=
  [ create_task_send_text {| code := ResponseCode.BAD_REQUEST;
                             description := error_message |} ].

(** [_validate_token]: the actions on the socket and the user id. *)
Definition _validate_token (token : option string)
  : list action * option string :=
  match token with
  | None => (_send_error_and_close "token is required", None)
  | Some t =>
      if String.eqb t ""
      then (_send_error_and_close "token is required", None)
      else (nil, Some t)
  end.

(** The values the handler draws for a connection. *)
Record Fresh : Type := {
  job_id : string;
  connection_id : string;
  task_id : Z;
  now : Q }.

(** The handler: its actions, and the list [connected_clients] when it
    reaches the receive loop or returns. *)
Definition streaming_stt_recognization (env : Environ)
    (token : option string) (fresh : Fresh)
    (connected_clients : list Client.t) : list action * list Client.t :=
  match _validate_token token with
  | (acts, None) => (accept :: acts, connected_clients)
  | (acts, Some user_id) =>
      if (max_streaming_count settings <=? length connected_clients)%nat
      then (accept :: acts
              ++ _send_error_and_close "exceeded number of connections",
            connected_clients)
      else
        match new_session env user_id (job_id fresh) (connection_id fresh)
                16000 2 0 (now fresh) with
        | Some w =>
            (accept :: acts
               ++ [ send_text_starting (connection_id fresh);
                    create_task_notify_ready (connection_id fresh)
                      (task_id fresh);
                    handle_audio w ],
             connected_clients ++ [client w])
        | None =>
            (accept :: acts
               ++ _send_error_and_close "Internal server error: ...",
             connected_clients)
        end
  end.

(** A client object was constructed for the connection. *)
Definition creates_client (acts : list action) : bool :=
  existsb (fun a => match a with handle_audio _ => true | _ => false end) acts.

(** The rejections scheduled on the socket. *)
Definition rejections (acts : list action) : list Response :=
  flat_map (fun a => match a with
                     | create_task_send_text r => [r]
                     | _ => []
                     end) acts.

End Admission.

(** ** Example sessions *)

(** A small client used in the examples: 10 Hz, 2 bytes per sample, so that
    one second of audio is 20 bytes. *)
Definition bytes (n : N) : list byte := repeat x00 (N.to_nat n).

Definition example_client (buffer scratch : list byte) : Client.t :=
  {| Client.client_id := "user";
     Client.buffer := buffer;
     Client.scratch_buffer := scratch;
     Client.session_audio_buffer := scratch ++ buffer;
     Client.config := default_config;
     Client.file_counter := 0;
     Client.chunk_save_counter := 0;
     Client.total_samples := 0;
     Client.sampling_rate := 10;
     Client.samples_width := 2;
     Client.buffering_strategy := 0%nat;
     Client.connect_time := Some 100;
     Client.job_id := "job";
     Client.last_start_time := 0;
     Client.start_time := 100;
     Client.transcript := [];
     Client.connection_id := Some "connection"%string |}.

(** The session of scenario A: 10 Hz, 16-bit samples (20 bytes per second),
    the default configuration (1.5 s chunks, 0.1 s offset), after a frame with
    2.0 s of audio has been received and the task it spawned has reached the
    detector. *)
Definition session_A : option session :=
  match new_session no_environ "user" "job" "connection" 10 2 0 100 with
  | Some w =>
      run w [BinaryFrame 100 (bytes 40); Resume 0 (Start 100)]
  | None => None
  end.

Definition one_interval (end_ : Q) : list Interval :=
  [ {| iv_start := 0; iv_end := end_; iv_confidence := 1 |} ].


(** A session at 10 Hz, 16-bit samples, connected at clock reading 100, and
    its runs. *)
Definition fresh_session : option session :=
  new_session no_environ "user" "job" "connection" 10 2 0 100.

Definition run_fresh (es : list event) : option session :=
  match fresh_session with
  | Some w => run w es
  | None => None
  end.

(** The flag of the strategy object at reference [i]. *)
Definition flag_of (w : session) (i : nat) : option bool :=
  Strategy.processing_flag <$> strategies w !! i.

(** Scenario B with audio arriving meanwhile: the 2.0 s chunk has been
    promoted and its task awaits the detector when 0.5 s more audio is
    received, which stays in the pending buffer. *)
Definition session_B : option session :=
  run_fresh [BinaryFrame 100 (bytes 40); Resume 0 (Start 100);
             BinaryFrame 101 (bytes 10)].

(** A recognition that succeeds: scenario A, the detector reporting speech
    up to 1.8 s and the recogniser returning a text lasting 1.5 s. *)
Definition hello : Transcription :=
  {| tr_text := Some "hello"%string; tr_duration := Some (3 # 2) |}.

Definition recognition_events : list event :=
  [ BinaryFrame 100 (bytes 40);
    Resume 0 (Start 100);
    Resume 0 (VadDone (VadReturns (one_interval (18 # 10))));
    Resume 0 (AsrDone (AsrReturns (Some hello)) 103 "uuid");
    Resume 0 (SendDone SendOk SendOk) ].

(** The payloads sent as text frames, oldest first. *)
Definition results (fs : list Frame) : list Payload :=
  flat_map (fun f => match f with
                     | ResultText p => [p]
                     | _ => []
                     end) fs.

(** A configuration message that repeats the default processing arguments. *)
Definition same_args : ConfigData :=
  {| cd_language := None;
     cd_processing_strategy := None;
     cd_processing_args := Some (processing_args default_config) |}.

(** A configuration update received while the first chunk is in flight,
    followed by a second frame with 2.0 s of audio. *)
Definition reconfigured_events : list event :=
  [ BinaryFrame 100 (bytes 40);
    ConfigFrame same_args None;
    BinaryFrame 101 (bytes 40) ].

(** ** Accounting of the audio bytes *)

(** The bytes appended so far: [session_audio_buffer] keeps them all. *)
Definition appended (w : session) : Z :=
  Py.len (Client.session_audio_buffer (client w)).

(** The bytes handed to the recogniser, over all its calls. *)
Definition delivered (w : session) : Z :=
  fold_right Z.add 0%Z (map Py.len (transcribed w)).

(** The bytes in the pending and the working buffer. *)
Definition remaining (w : session) : Z :=
  (Py.len (Client.buffer (client w))
   + Py.len (Client.scratch_buffer (client w)))%Z.

(** A task that has handed the working buffer to the recogniser and has not
    yet cleared it. *)
Definition is_delivering (p : pc) : bool :=
  match p with
  | AwaitAsr _ _ | AwaitSend _ _ => true
  | _ => false
  end.

Definition delivering (w : session) : bool :=
  existsb (fun t => is_delivering (task_pc t)) (tasks w).

(** No task is in flight. *)
Definition quiescent (w : session) : bool :=
  forallb (fun t => negb (in_flight t)) (tasks w).

Definition failed (t : Task) : bool :=
  match task_pc t with
  | Failed _ => true
  | _ => false
  end.

Definition no_failure (w : session) : bool :=
  forallb (fun t => negb (failed t)) (tasks w).

Definition is_audio (e : event) : bool :=
  match e with
  | BinaryFrame _ _ => true
  | _ => false
  end.





(** At most one task is in flight. *)
Definition sole_in_flight (w : session) : Prop :=
  forall i j ti tj,
    tasks w !! i = Some ti -> tasks w !! j = Some tj ->
    in_flight ti = true -> in_flight tj = true -> i = j.


(** ** The time line of the results *)



(** No task spawned before task [k] is in flight. *)
Definition older_idle (w : session) (k : nat) : bool :=
  forallb (fun t => negb (in_flight t)) (take k (tasks w)).


(** [start_transcribe_time] of task [t] for the connect time [ct]. *)
Definition start_transcribe_time_of (ct : Q) (t : Task) : Q :=
  inject_Z (Py.int (task_start_time t - ct)) + task_default_start_time t.

(** A task past its start has computed its [start_transcribe_time] from the
    connect time of the client. *)
Definition started_ok (w : session) (t : Task) : Prop :=
  match task_pc t with
  | AwaitVad _ stt | AwaitAsr _ stt =>
      exists ct, Client.connect_time (client w) = Some ct
                 /\ stt = start_transcribe_time_of ct t
  | AwaitSend p _ =>
      exists ct, Client.connect_time (client w) = Some ct
                 /\ p_startTime p = Py.round3 (start_transcribe_time_of ct t)
  | _ => True
  end.

(** The invariant behind the order of the results.  [L] is the client's
    [last_start_time], [T] the last clock reading. *)
Record timeline (L T : Q) (w : session) : Prop := {
  tl_last : Client.last_start_time (client w) = L;
  tl_tasks : forall k t, tasks w !! k = Some t ->
      task_default_start_time t = L /\ task_start_time t <= T;
  tl_sorted : forall i j ti tj, (i < j)%nat ->
      tasks w !! i = Some ti -> tasks w !! j = Some tj ->
      task_start_time ti <= task_start_time tj;
  tl_current : forall s v,
      strategies w !! Client.buffering_strategy (client w) = Some s ->
      Strategy.start_time s = Some v ->
      v <= T /\ forall k t, tasks w !! k = Some t -> task_start_time t <= v;
  tl_started : forall k t, tasks w !! k = Some t -> started_ok w t;
  tl_fifo : forall i j ti tj, (i < j)%nat ->
      tasks w !! i = Some ti -> tasks w !! j = Some tj ->
      task_pc tj <> Created -> in_flight ti = false;
  tl_results : forall p, In p (results (sent w)) ->
      exists k t ct, tasks w !! k = Some t /\ task_pc t = Finished
        /\ Client.connect_time (client w) = Some ct
        /\ p_startTime p = Py.round3 (start_transcribe_time_of ct t);
  tl_order : forall i j a b, (i < j)%nat ->
      results (sent w) !! i = Some a -> results (sent w) !! j = Some b ->
      p_startTime a <= p_startTime b }.

(** How a step may change the [start_time] of the current strategy: it
    keeps the value, or sets it to a reading between [T] and [T']. *)
Definition current_ok (T T' : Q) (w w' : session) : Prop :=
  forall s' v,
    strategies w' !! Client.buffering_strategy (client w') = Some s' ->
    Strategy.start_time s' = Some v ->
    (exists s, strategies w !! Client.buffering_strategy (client w) = Some s
               /\ Strategy.start_time s = Some v)
    \/ (T <= v /\ v <= T').

(** The connect time, once set, stays. *)
Definition connect_ok (w w' : session) : Prop :=
  forall ct, Client.connect_time (client w) = Some ct ->
             Client.connect_time (client w') = Some ct.

(** Two recognitions in a row: the one of [recognition_events], then 0.5 s
    and 2.0 s more audio, promoted at clock reading 105 and recognised. *)
Definition two_recognitions : list event :=
  recognition_events
  ++ [ BinaryFrame 104 (bytes 10);
       BinaryFrame 105 (bytes 40);
       Resume 1 (Start 105);
       Resume 1 (VadDone (VadReturns (one_interval (18 # 10))));
       Resume 1 (AsrDone (AsrReturns (Some hello)) 106 "uuid");
       Resume 1 (SendDone SendOk SendOk) ].

(** * Further definitions *)

(** The audio an event brings to the client. *)
Definition audio_of (e : event) : list byte :=
  match e with
  | BinaryFrame _ audio_chunk => audio_chunk
  | _ => []
  end.

(** The tasks that have called the recogniser and not yet finished their
    chunk. *)
Fixpoint count_delivering (l : list Task) : nat :=
  match l with
  | [] => 0
  | t :: l' =>
      ((if is_delivering (task_pc t) then 1 else 0) + count_delivering l')%nat
  end.

(** A run in which audio is received only while no task is in flight. *)
Fixpoint one_at_a_time (w : session) (es : list event) : bool :=
  match es with
  | [] => true
  | e :: es' =>
      (if is_audio e then quiescent w else true)
      && match step w e with
         | Some w' => one_at_a_time w' es'
         | None => true
         end
  end.

(** A task of the strategy object at reference [i] is in flight. *)
Definition busy (w : session) (i : nat) : Prop :=
  exists k t, tasks w !! k = Some t /\ task_self t = i /\ in_flight t = true.

(** A task of the strategy object at reference [i] has ended with an
    exception. *)
Definition broken (w : session) (i : nat) : Prop :=
  exists k t, tasks w !! k = Some t /\ task_self t = i /\ failed t = true.

(** The guard as a state machine: tasks refer to existing strategy objects,
    a strategy with a task in flight has its flag set, and a set flag comes
    from a task in flight or from one that ended with an exception. *)
Record guarded (w : session) : Prop := {
  gd_valid : forall k t, tasks w !! k = Some t ->
      is_Some (flag_of w (task_self t));
  gd_busy : forall i, busy w i -> flag_of w i = Some true;
  gd_flag : forall i, flag_of w i = Some true -> busy w i \/ broken w i }.

(** ** The list of connected clients *)

Module Registry.

(** The end of [handle_audio] (its [finally] block):
    [for c in connected_clients: if c.client_id == client.client_id:
    connected_clients.remove(c); break].  The first object of the list with
    the client's id is removed, whichever session it belongs to. *)
Fixpoint remove_client (client_id : string)
    (connected_clients : list Client.t) : list Client.t :=
  match connected_clients with
  | [] => []
  | c :: rest =>
      if String.eqb (Client.client_id c) client_id then rest
      else c :: remove_client client_id rest
  end.

(** What happens to [connected_clients]: a connection reaches the handler,
    or a session with the given client id ends. *)
Inductive request : Type :=
| Connect (env : Environ) (token : option string) (fresh : Admission.Fresh)
| Disconnect (client_id : string).

Definition serve (connected_clients : list Client.t) (r : request)
  : list Client.t :=
  match r with
  | Connect env token fresh =>
      snd (Admission.streaming_stt_recognization env token fresh
             connected_clients)
  | Disconnect client_id => remove_client client_id connected_clients
  end.

Definition serve_all (connected_clients : list Client.t)
    (rs : list request) : list Client.t :=
  fold_left serve rs connected_clients.

End Registry.

(** The values drawn for the connections of the examples. *)
Definition fresh_n (n : Z) : Admission.Fresh :=
  {| Admission.job_id := "job"; Admission.connection_id := "connection";
     Admission.task_id := n; Admission.now := 100 |}.

(** ** File names and time stamps *)

(** Python's formatting of integers.  Strings are sequences of bytes (UTF-8);
    a substring test on valid UTF-8 agrees with the test on code points. *)
Module Fmt.

(** [str(z)], as [f"{z}"] prints an integer. *)
Definition str (z : Z) : string := NilEmpty.string_of_int (Z.to_int z).

Definition zeros (n : nat) : string :=
  string_of_list_ascii (repeat "0"%char n).

(** [f"{z:0{width}d}"]: the decimal digits, padded with zeros after the sign
    up to [width] characters. *)
Definition format_0d (width : nat) (z : Z) : string :=
  let digits := NilEmpty.string_of_uint (N.to_uint (Z.abs_N z)) in
  if (z <? 0)%Z
  then "-" ++ zeros (width - 1 - String.length digits) ++ digits
  else zeros (width - String.length digits) ++ digits.

End Fmt.

(** [Client.get_file_name] *)
Definition get_file_name (c : Client.t) : string :=
  Client.client_id c ++ "_" ++ Fmt.str (Z.of_nat (Client.file_counter c))
  ++ ".wav".

(** [Client.get_chunk_file_name] *)
Definition get_chunk_file_name (c : Client.t) : string :=
  Client.client_id c ++ "_chunk_"
  ++ Fmt.format_0d 6 (Z.of_nat (Client.chunk_save_counter c)) ++ ".wav".

(** ** [utils] *)

Module Utils.

Inductive raised : Type :=
| AssertionError (message : string)
| AttributeError.


End Utils.

Module Text.

(** [sub in s] for strings. *)
Fixpoint contains (sub s : string) : bool :=
  String.prefix sub s
  || match s with
     | EmptyString => false
     | String _ s' => contains sub s'
     end.

End Text.

Module Filter.

(** [utils.ignore_text] *)
Definition ignore_text : list string :=
  [ "字幕by";
    "中文字幕由";
    "中文字幕 by";
    "中文字幕提供";
    "請你一定要顯示繁體中文";
    "订阅";
    "打赏";
    "不吝點贊";
    "阿波羅網編譯";
    "逐字稿機器";
    "請看影片資訊欄";
    "Amara.org";
    "整理&字幕志願者";
    "以上言論不代表本台立場";
    "點點欄目";
    "不吝點贊";
    "訂閱轉發";
    "喜歡請訂閱";
    "按讚及分享" ]%string.

(** [utils.filter_text] *)
Definition filter_text (text : string) : option string :=
  if existsb (fun ignore_text_str => Text.contains ignore_text_str text)
       ignore_text
  then None
  else Some text.

(** A segment of an offline transcription, a dictionary read with
    [segment["start"]], [segment["end"]] and [segment["text"]]; [seg_attr_text]
    is what the attribute access [segment.text] gives, [None] when the object
    has no such attribute, as for a [dict]. *)
Record Segment : Type := {
  seg_start : Q;
  seg_end : Q;
  seg_text : string;
  seg_attr_text : option string }.

(** [utils.filter_offline_segments].  The test is the chained comparison
    [ignore_text_str in segment["text"] in ignore_text_str]; the warning
    formats [segment.text] before the segment is skipped. *)
Fixpoint filter_offline_segments_from (filtered segments : list Segment)
  : list Segment + Utils.raised :=
  match segments with
  | [] => inl filtered
  | segment :: rest =>
      if existsb (fun ignore_text_str =>
                    Text.contains ignore_text_str (seg_text segment)
                    && Text.contains (seg_text segment) ignore_text_str)
           ignore_text
      then
        match seg_attr_text segment with
        | None => inr Utils.AttributeError
        | Some _ => filter_offline_segments_from filtered rest
        end
      else filter_offline_segments_from (filtered ++ [segment]) rest
  end.

Definition filter_offline_segments (segments : list Segment)
  : list Segment + Utils.raised :=
  filter_offline_segments_from [] segments.

End Filter.

(** ** [FasterWhisperASR.transcribe] *)

Module FasterWhisperASR.

(** What the [faster_whisper] model gives: words (an end or start that is
    [None] is [None] here), segments ([words] is [None] without word time
    stamps) and the information on the language. *)
Record Word : Type := {
  w_word : string;
  w_start : option Q;
  w_end : option Q;
  w_probability : option Q }.

Record Segment : Type := {
  seg_text : string;
  seg_end : option Q;
  seg_words : option (list Word) }.

Record Info : Type := {
  info_language : option string;
  info_language_probability : option Q }.

(** An entry of [to_return["words"]]. *)
Record WordOut : Type := {
  word : string;
  start : Q;
  end_ : Q;
  probability : option Q }.

(** The dictionary [to_return]. *)
Record Result : Type := {
  language : option string;
  language_probability : option Q;
  final : bool;
  text : string;
  duration : option Q;
  words : list WordOut }.

Section Transcribe.

(** [str.strip] *)
Variable strip : string -> string.

(** [" ".join([getattr(s, "text", "").strip() for s in segments])] *)
Definition join_text (segments : list Segment) : string :=
  String.concat " " (map (fun s => strip (seg_text s)) segments).

(** The loop that fills [flattened_words]. *)
Definition flatten_words (segments : list Segment) : list Word :=
  flat_map (fun segment =>
              match seg_words segment with
              | Some ws => ws
              | None => []
              end) segments.

(** [x or 0] *)
Definition or_0 (x : option Q) : Q :=
  match x with
  | Some v => v
  | None => 0
  end.

(** From [text = " ".join(...)] to [return to_return]. *)
Definition to_return (client : Client.t) (segments : list Segment)
    (info : Info) : Result :=
  let text := join_text segments in
  let text :=
    match Filter.filter_text text with
    | Some text => text
    | None => join_text segments
    end in
  let flattened_words := flatten_words segments in
  let duration :=
    match last flattened_words with
    | Some w => w_end w
    | None =>
        match last segments with
        | Some segment => seg_end segment
        | None => None
        end
    end in
  {| language := info_language info;
     language_probability := info_language_probability info;
     final := true;
     text := text;
     duration := duration;
     words :=
       map (fun w =>
              {| word := w_word w;
                 start := or_0 (w_start w) + Client.last_start_time client;
                 end_ := or_0 (w_end w) + Client.last_start_time client;
                 probability := w_probability w |}) flattened_words |}.

(** [transcribe].  [save] tells whether [save_audio_to_file] returned;
    [first] and [retry] are the two calls of the model with their segments
    listed, [None] when the call raises.  Every exception is caught and
    answered with [None]. *)
Definition transcribe (client : Client.t) (save : bool)
    (first retry : option (list Segment * Info)) : option Result :=
  if save then
    match first with
    | None => None
    | Some (segments, info) =>
        if (length segments =? 0)%nat then
          let '(segments, info) :=
            match retry with
            | Some (segments_retry, info_retry) => (segments_retry, info_retry)
            | None => (segments, info)
            end in
          if (length segments =? 0)%nat then None
          else Some (to_return client segments info)
        else Some (to_return client segments info)
    end
  else None.

(** The answer as the buffering strategy reads it: the keys ["text"] and
    ["duration"]. *)
Definition transcription_of (r : Result) : Transcription :=
  {| tr_text := Some (text r); tr_duration := duration r |}.

Definition outcome_of (o : option Result) : asr_outcome :=
  AsrReturns (option_map transcription_of o).

End Transcribe.

End FasterWhisperASR.

(** A segment of the examples, without word time stamps. *)
Definition example_segment (text : string) (e : Q) : FasterWhisperASR.Segment :=
  {| FasterWhisperASR.seg_text := text;
     FasterWhisperASR.seg_end := Some e;
     FasterWhisperASR.seg_words := None |}.

Definition example_info : FasterWhisperASR.Info :=
  {| FasterWhisperASR.info_language := Some "zh"%string;
     FasterWhisperASR.info_language_probability := Some (9 # 10) |}.

(** A configuration message that carries a sample rate only. *)
Definition only_sample_rate : ConfigData :=
  {| cd_language := None;
     cd_processing_strategy := None;
     cd_processing_args := None |}.
(** * Properties *)

(** ** Numerics *)

Lemma ltb_lt (a b : Q) : Py.ltb a b = true <-> a < b.
Proof.
  unfold Py.ltb. rewrite negb_true_iff.
  split; intros H.
  - apply Qnot_le_lt. intros Hle. apply Qle_bool_iff in Hle. congruence.
  - destruct (Qle_bool b a) eqn:E; [|reflexivity].
    apply Qle_bool_iff in E. exfalso. apply (Qlt_not_le _ _ H E).
Qed.

Lemma ltb_ge (a b : Q) : Py.ltb a b = false <-> b <= a.
Proof.
  unfold Py.ltb. rewrite negb_false_iff. apply Qle_bool_iff.
Qed.

Lemma int_monotone (x y : Q) : x <= y -> (Py.int x <= Py.int y)%Z.
Proof.
  unfold Qle, Py.int. intros H.
  rewrite <- (Z.quot_mul_cancel_r (Qnum x) (QDen x) (QDen y)) by lia.
  rewrite <- (Z.quot_mul_cancel_r (Qnum y) (QDen y) (QDen x)) by lia.
  rewrite (Z.mul_comm (QDen y) (QDen x)).
  apply Z.quot_le_mono; lia.
Qed.

Lemma round_half_even_bounds (x : Q) :
  (Qfloor x <= Py.round_half_even x <= Qfloor x + 1)%Z.
Proof.
  unfold Py.round_half_even.
  destruct (Py.ltb _ _); [lia|].
  destruct (Py.ltb _ _); [lia|].
  destruct (Z.even _); lia.
Qed.

Lemma round_half_even_monotone (x y : Q) :
  x <= y -> (Py.round_half_even x <= Py.round_half_even y)%Z.
Proof.
  intros Hxy.
  pose proof (Qfloor_resp_le x y Hxy) as Hfg.
  pose proof (round_half_even_bounds x) as Bx.
  pose proof (round_half_even_bounds y) as By.
  destruct (Z.eq_dec (Qfloor x) (Qfloor y)) as [E|NE]; [|lia].
  unfold Py.round_half_even in *. rewrite <- E in *.
  set (f := Qfloor x) in *.
  destruct (Py.ltb (x - inject_Z f) (1 # 2)) eqn:X1.
  { destruct (Py.ltb (y - inject_Z f) (1 # 2)); [lia|].
    destruct (Py.ltb (1 # 2) (y - inject_Z f)); [lia|].
    destruct (Z.even f); lia. }
  apply ltb_ge in X1.
  assert (Y1 : Py.ltb (y - inject_Z f) (1 # 2) = false)
    by (apply ltb_ge; lra).
  rewrite Y1.
  destruct (Py.ltb (1 # 2) (x - inject_Z f)) eqn:X2.
  { apply ltb_lt in X2.
    assert (Y2 : Py.ltb (1 # 2) (y - inject_Z f) = true)
      by (apply ltb_lt; lra).
    rewrite Y2. lia. }
  destruct (Py.ltb (1 # 2) (y - inject_Z f)); [destruct (Z.even f); lia|].
  lia.
Qed.

Lemma round3_monotone (x y : Q) : x <= y -> Py.round3 x <= Py.round3 y.
Proof.
  intros Hxy. unfold Py.round3.
  assert (H : x * 1000 <= y * 1000) by lra.
  apply round_half_even_monotone in H.
  unfold Qle. cbn [Qnum Qden]. lia.
Qed.

(** [int(start_time - connect_time) + last_start_time], the start of a
    task's transcription on the session's time line. *)
Lemma start_transcribe_time_monotone (s1 s2 ct l : Q) :
  s1 <= s2 ->
  inject_Z (Py.int (s1 - ct)) + l <= inject_Z (Py.int (s2 - ct)) + l.
Proof.
  intros H.
  assert (H' : s1 - ct <= s2 - ct) by lra.
  apply int_monotone in H'. rewrite Zle_Qle in H'. lra.
Qed.

(** ** Projections of the state updates *)

Section Projections.
Context (w : session).

Lemma update_strategy_client i f : client (update_strategy i f w) = client w.
Proof. unfold update_strategy. destruct (strategies w !! i); reflexivity. Qed.

Lemma update_strategy_tasks i f : tasks (update_strategy i f w) = tasks w.
Proof. unfold update_strategy. destruct (strategies w !! i); reflexivity. Qed.

Lemma update_strategy_sent i f : sent (update_strategy i f w) = sent w.
Proof. unfold update_strategy. destruct (strategies w !! i); reflexivity. Qed.

Lemma update_strategy_transcribed i f :
  transcribed (update_strategy i f w) = transcribed w.
Proof. unfold update_strategy. destruct (strategies w !! i); reflexivity. Qed.

Lemma update_strategy_log i f : log (update_strategy i f w) = log w.
Proof. unfold update_strategy. destruct (strategies w !! i); reflexivity. Qed.

Lemma update_strategy_strategies i f :
  strategies (update_strategy i f w)
  = match strategies w !! i with
    | Some s => <[i := f s]> (strategies w)
    | None => strategies w
    end.
Proof. unfold update_strategy. destruct (strategies w !! i); reflexivity. Qed.

Lemma update_strategy_lookup i f s :
  strategies w !! i = Some s ->
  strategies (update_strategy i f w) !! i = Some (f s).
Proof.
  intros H. rewrite update_strategy_strategies, H.
  apply list_lookup_insert_eq. apply lookup_lt_Some in H. exact H.
Qed.


Lemma update_task_client k p : client (update_task k p w) = client w.
Proof. unfold update_task. destruct (tasks w !! k); reflexivity. Qed.

Lemma update_task_strategies k p :
  strategies (update_task k p w) = strategies w.
Proof. unfold update_task. destruct (tasks w !! k); reflexivity. Qed.

Lemma update_task_sent k p : sent (update_task k p w) = sent w.
Proof. unfold update_task. destruct (tasks w !! k); reflexivity. Qed.

Lemma update_task_transcribed k p :
  transcribed (update_task k p w) = transcribed w.
Proof. unfold update_task. destruct (tasks w !! k); reflexivity. Qed.

Lemma update_task_log k p : log (update_task k p w) = log w.
Proof. unfold update_task. destruct (tasks w !! k); reflexivity. Qed.

Lemma update_task_tasks k p :
  tasks (update_task k p w)
  = match tasks w !! k with
    | Some t => <[k := set_pc p t]> (tasks w)
    | None => tasks w
    end.
Proof. unfold update_task. destruct (tasks w !! k); reflexivity. Qed.

Lemma update_task_lookup k p t :
  tasks w !! k = Some t ->
  tasks (update_task k p w) !! k = Some (set_pc p t).
Proof.
  intros H. rewrite update_task_tasks, H.
  apply list_lookup_insert_eq. apply lookup_lt_Some in H. exact H.
Qed.

Lemma update_task_lookup_ne k j p :
  k <> j -> tasks (update_task k p w) !! j = tasks w !! j.
Proof.
  intros H. rewrite update_task_tasks.
  destruct (tasks w !! k); [|reflexivity].
  apply list_lookup_insert_ne. exact H.
Qed.

Lemma update_task_length k p :
  length (tasks (update_task k p w)) = length (tasks w).
Proof.
  rewrite update_task_tasks. destruct (tasks w !! k); [|reflexivity].
  apply length_insert.
Qed.

End Projections.

Create Rewrite HintDb proj.
#[local] Hint Rewrite update_strategy_client update_strategy_tasks
  update_strategy_sent update_strategy_transcribed update_strategy_log
  update_task_client update_task_strategies update_task_sent
  update_task_transcribed update_task_log : proj.

Ltac proj := repeat (autorewrite with proj; cbn [client strategies tasks sent
  transcribed log environ websocket pipelines receiving set_client
  set_strategies set_tasks send logging call_transcribe stop_receiving]).

(** ** The shipped detector *)


(** C9. With [d] the duration of the working buffer (its length over
    [sampling_rate * samples_width], which must be non-zero for the duration
    to exist), [SimpleVAD.detect_activity] returns the empty list when the
    buffer is empty or [d] is below [min_duration], and otherwise exactly the
    one interval from 0 to [d] with confidence 1. *)
Theorem simple_vad_detect_activity (min_duration : Q) (c : Client.t) (d : Q) :
  Py.truediv (Py.len (Client.scratch_buffer c))
    (Client.sampling_rate c * Client.samples_width c) = Some d ->
  (Client.scratch_buffer c = [] ->
   SimpleVAD.detect_activity min_duration c = VadReturns [])
  /\ (d < min_duration ->
      SimpleVAD.detect_activity min_duration c = VadReturns [])
  /\ (Client.scratch_buffer c <> [] -> ~ d < min_duration ->
      SimpleVAD.detect_activity min_duration c
      = VadReturns [ {| iv_start := 0; iv_end := d; iv_confidence := 1 |} ]).
Proof.
  intros Hd. unfold SimpleVAD.detect_activity. rewrite Hd.
  split; [|split].
  - intros ->. reflexivity.
  - intros Hlt. apply ltb_lt in Hlt. rewrite Hlt.
    destruct (Py.len (Client.scratch_buffer c) =? 0)%Z; reflexivity.
  - intros Hne Hge.
    destruct (Py.len (Client.scratch_buffer c) =? 0)%Z eqn:E.
    + apply Z.eqb_eq in E. unfold Py.len in E.
      destruct (Client.scratch_buffer c); [congruence | discriminate].
    + destruct (Py.ltb d min_duration) eqn:L; [|reflexivity].
      apply ltb_lt in L. contradiction.
Qed.

Lemma simple_vad_detect_activity_witness :
  SimpleVAD.detect_activity SimpleVAD.default_min_duration
    (example_client [] (bytes 4))
  = VadReturns [ {| iv_start := 0; iv_end := inject_Z 4 / inject_Z 20;
                    iv_confidence := 1 |} ].
Proof.
  refine (proj2 (proj2 (simple_vad_detect_activity SimpleVAD.default_min_duration
                          (example_client [] (bytes 4))
                          (inject_Z 4 / inject_Z 20) eq_refl)) _ _).
  - discriminate.
  - intros H. vm_compute in H. discriminate.
Defined.

(** ** The trigger *)

Lemma exceeds_chunk_connect_time self c v :
  exceeds_chunk self (Client.set_connect_time v c) = exceeds_chunk self c.
Proof. reflexivity. Qed.

(** The state [process_audio] leaves when the pending buffer is promoted. *)
Lemma process_audio_promotes i now w self :
  strategies w !! i = Some self ->
  exceeds_chunk self (client w) = true ->
  let w' := process_audio i now w in
  Client.buffer (client w') = []
  /\ Client.scratch_buffer (client w')
     = Client.scratch_buffer (client w) ++ Client.buffer (client w)
  /\ tasks w'
     = tasks w ++ [ {| task_self := i;
                       task_start_time :=
                         match Strategy.start_time self with
                         | Some v => v
                         | None => now
                         end;
                       task_default_start_time :=
                         Client.last_start_time (client w);
                       task_pc := Created |} ]
  /\ log w' = (if Strategy.processing_flag self
               then log w ++ [Warning overlap_warning] else log w)
  /\ strategies w'
     = <[i := Strategy.set_start_time None
                (Strategy.set_processing_flag true self)]> (strategies w).
Proof.
  intros Hs Hex. unfold process_audio. rewrite Hs.
  assert (Hex' : exceeds_chunk self
            match Client.connect_time (client w) with
            | Some _ => client w
            | None => if (0 <? Py.len (Client.buffer (client w)))%Z
                      then Client.set_connect_time (Some now) (client w)
                      else client w
            end = true).
  { destruct (Client.connect_time (client w)); [exact Hex|].
    destruct (0 <? Py.len (Client.buffer (client w)))%Z; exact Hex. }
  rewrite Hex'. cbv zeta.
  rewrite update_strategy_strategies.
  proj.
  assert (Hs' : strategies (if Strategy.processing_flag self
                            then logging (Warning overlap_warning) w else w)
                = strategies w)
    by (destruct (Strategy.processing_flag self); reflexivity).
  rewrite Hs', Hs.
  destruct (Client.connect_time (client w)) eqn:Ect;
    [|destruct (0 <? Py.len (Client.buffer (client w)))%Z];
    destruct (Strategy.processing_flag self); cbn; auto.
Qed.

(** The state [process_audio] leaves when it does not promote. *)
Lemma process_audio_waits i now w self :
  strategies w !! i = Some self ->
  exceeds_chunk self (client w) = false ->
  let w' := process_audio i now w in
  Client.buffer (client w') = Client.buffer (client w)
  /\ Client.scratch_buffer (client w') = Client.scratch_buffer (client w)
  /\ tasks w' = tasks w
  /\ log w' = log w
  /\ strategies w'
     = <[i := Strategy.set_start_time
                (Some match Strategy.start_time self with
                      | Some v => v
                      | None => now
                      end) self]> (strategies w).
Proof.
  intros Hs Hex. unfold process_audio. rewrite Hs.
  assert (Hex' : exceeds_chunk self
            match Client.connect_time (client w) with
            | Some _ => client w
            | None => if (0 <? Py.len (Client.buffer (client w)))%Z
                      then Client.set_connect_time (Some now) (client w)
                      else client w
            end = false).
  { destruct (Client.connect_time (client w)); [exact Hex|].
    destruct (0 <? Py.len (Client.buffer (client w)))%Z; exact Hex. }
  rewrite Hex'. cbv zeta.
  rewrite update_strategy_strategies. proj. rewrite Hs.
  destruct (Client.connect_time (client w)) eqn:Ect;
    [|destruct (0 <? Py.len (Client.buffer (client w)))%Z]; cbn; auto.
Qed.

(** What [process_audio_async_vad] does, read off its definition. *)
Lemma process_audio_async_vad_inv k o w w' :
  process_audio_async_vad k o w = Some w' ->
  exists t spt stt self,
    tasks w !! k = Some t /\ task_pc t = AwaitVad spt stt
    /\ strategies w !! task_self t = Some self
    /\ w' = match o with
            | VadRaises e => update_task k (Failed e) w
            | VadReturns vad_results =>
                match last vad_results with
                | None =>
                    update_task k Finished
                      (update_strategy (task_self t)
                         (Strategy.set_processing_flag false)
                         (set_client
                            (Client.set_buffer []
                               (Client.set_scratch_buffer [] (client w))) w))
                | Some iv =>
                    match last_segment_should_end_before self (client w) with
                    | None => update_task k (Failed ZeroDivisionError) w
                    | Some cutoff =>
                        if should_transcribe (iv_end iv) cutoff
                        then update_task k (AwaitAsr spt stt)
                               (call_transcribe w)
                        else update_task k Finished
                               (update_strategy (task_self t)
                                  (Strategy.set_processing_flag false) w)
                    end
                end
            end.
Proof.
  unfold process_audio_async_vad. intros H.
  destruct (tasks w !! k) as [t|] eqn:Et; [|discriminate].
  destruct (task_pc t) eqn:Ep; try discriminate.
  destruct (strategies w !! task_self t) as [self|] eqn:Es; [|discriminate].
  exists t, start_process_time, start_transcribe_time, self.
  split; [reflexivity|]. split; [exact Ep|]. split; [exact Es|].
  destruct o as [rs|e]; [|congruence].
  destruct (last rs); [|congruence].
  destruct (last_segment_should_end_before self (client w)); [|congruence].
  destruct (should_transcribe _ _); congruence.
Qed.






(** ** The other resumptions, read off their definitions *)

Lemma process_audio_async_start_inv k now w w' :
  process_audio_async_start k now w = Some w' ->
  exists t,
    tasks w !! k = Some t /\ task_pc t = Created
    /\ w' = match Client.connect_time (client w) with
            | None => update_task k (Failed TypeError) w
            | Some ct =>
                update_task k
                  (AwaitVad now
                     (inject_Z (Py.int (task_start_time t - ct))
                      + task_default_start_time t)) w
            end.
Proof.
  unfold process_audio_async_start. intros H.
  destruct (tasks w !! k) as [t|] eqn:Et; [|discriminate].
  destruct (task_pc t) eqn:Ep; try discriminate.
  exists t. split; [reflexivity|]. split; [exact Ep|].
  destruct (Client.connect_time (client w)); congruence.
Qed.


Lemma process_audio_async_asr_inv k o now uuid4 w w' :
  process_audio_async_asr k o now uuid4 w = Some w' ->
  exists t spt stt,
    tasks w !! k = Some t /\ task_pc t = AwaitAsr spt stt
    /\ w' = match o with
            | AsrRaises e => update_task k (Failed e) w
            | AsrReturns (Some tr) =>
                match tr_text tr with
                | Some text =>
                    let w1 := update_strategy (task_self t)
                                (Strategy.set_start_time (Some now)) w in
                    match tr_duration tr with
                    | None => update_task k (Failed TypeError) w1
                    | Some duration =>
                        update_task k
                          (AwaitSend
                             (make_payload (client w) uuid4 text stt duration)
                             tr) w1
                    end
                | None => finish_chunk k (task_self t) w
                end
            | AsrReturns None => finish_chunk k (task_self t) w
            end.
Proof.
  unfold process_audio_async_asr. intros H.
  destruct (tasks w !! k) as [t|] eqn:Et; [|discriminate].
  destruct (task_pc t) eqn:Ep; try discriminate.
  exists t, start_process_time, start_transcribe_time.
  split; [reflexivity|]. split; [exact Ep|].
  destruct o as [[tr|]|e]; [|congruence|congruence].
  destruct (tr_text tr); [|congruence].
  destruct (tr_duration tr); cbv zeta in *; congruence.
Qed.


Lemma process_audio_async_send_inv k first second w w' :
  process_audio_async_send k first second w = Some w' ->
  exists t payload tr,
    tasks w !! k = Some t /\ task_pc t = AwaitSend payload tr
    /\ w' = match first with
            | SendOk => after_send k t payload (ResultText payload) w
            | SendRaises TypeError =>
                match second with
                | SendOk =>
                    after_send k t payload
                      match websocket w with
                      | Starlette => ResultJson tr
                      | Websockets => ResultText payload
                      end w
                | SendRaises e => update_task k (Failed e) w
                end
            | SendRaises e => update_task k (Failed e) w
            end.
Proof.
  unfold process_audio_async_send. intros H.
  destruct (tasks w !! k) as [t|] eqn:Et; [|discriminate].
  destruct (task_pc t) eqn:Ep; try discriminate.
  exists t, payload, transcription.
  split; [reflexivity|]. split; [exact Ep|].
  destruct first as [|[]]; try congruence.
  destruct second; congruence.
Qed.

Lemma finish_chunk_client k i w :
  client (finish_chunk k i w)
  = Client.increment_file_counter (Client.set_scratch_buffer [] (client w)).
Proof. unfold finish_chunk. proj. reflexivity. Qed.

Lemma finish_chunk_sent k i w : sent (finish_chunk k i w) = sent w.
Proof. unfold finish_chunk. proj. reflexivity. Qed.

Lemma finish_chunk_log k i w : log (finish_chunk k i w) = log w.
Proof. unfold finish_chunk. proj. reflexivity. Qed.

Lemma finish_chunk_transcribed k i w :
  transcribed (finish_chunk k i w) = transcribed w.
Proof. unfold finish_chunk. proj. reflexivity. Qed.

Lemma finish_chunk_strategies k i w :
  strategies (finish_chunk k i w)
  = match strategies w !! i with
    | Some s => <[i := Strategy.set_processing_flag false s]> (strategies w)
    | None => strategies w
    end.
Proof.
  unfold finish_chunk. proj. rewrite update_strategy_strategies. reflexivity.
Qed.

Lemma finish_chunk_tasks k i w :
  tasks (finish_chunk k i w)
  = match tasks w !! k with
    | Some t => <[k := set_pc Finished t]> (tasks w)
    | None => tasks w
    end.
Proof.
  unfold finish_chunk. rewrite update_task_tasks. proj. reflexivity.
Qed.

(** ** The in-flight guard *)

(** C1. The guard does not hold a second attempt back.  After a first frame
    with 2.0 s of audio the strategy's [processing_flag] is true and its task
    is in flight; a second such frame, received before that task has run,
    logs the warning and all the same promotes the new audio into the working
    buffer and spawns a second task: two attempts are in flight together. *)
Theorem second_attempt_while_in_flight :
  exists w1 w2,
    run_fresh [BinaryFrame 100 (bytes 40)] = Some w1
    /\ flag_of w1 0 = Some true
    /\ map in_flight (tasks w1) = [true]
    /\ log w1 = []
    /\ step w1 (BinaryFrame 101 (bytes 40)) = Some w2
    /\ log w2 = [Warning overlap_warning]
    /\ map in_flight (tasks w2) = [true; true]
    /\ map task_pc (tasks w2) = [Created; Created]
    /\ Client.scratch_buffer (client w2) = bytes 80.
Proof.
  eexists. eexists. vm_compute. repeat split; reflexivity.
Qed.

(** ** Exceptions of the collaborators *)

(** C2, as stated, fails: in scenario A a detector that raises ends the task
    with its exception; nothing is logged, the working buffer keeps its
    2.0 s of audio and [processing_flag] stays true. *)
Lemma detector_exception_not_handled :
  exists w w',
    session_A = Some w
    /\ process_audio_async_vad 0 (VadRaises (CollaboratorError "vad")) w
       = Some w'
    /\ map task_pc (tasks w') = [Failed (CollaboratorError "vad")]
    /\ log w' = []
    /\ Client.scratch_buffer (client w') = bytes 40
    /\ flag_of w' 0 = Some true.
Proof.
  eexists. eexists. vm_compute. repeat split; reflexivity.
Qed.

(** C2, amended. [process_audio_async] has no handler: when the detector or
    the recogniser raises, the task ends with that exception and the client
    (both buffers), every strategy object (so [processing_flag] too), the log
    and the socket are as they were.  Only a recogniser that reports its
    failure by returning [None] takes the task to its end: nothing is sent,
    the working buffer is cleared and [processing_flag] becomes false. *)
Theorem collaborator_exceptions_propagate :
  (forall (w w' : session) (k : nat) (e : exn),
      process_audio_async_vad k (VadRaises e) w = Some w' ->
      client w' = client w /\ strategies w' = strategies w
      /\ log w' = log w /\ sent w' = sent w
      /\ exists t, tasks w !! k = Some t
                   /\ tasks w' = <[k := set_pc (Failed e) t]> (tasks w))
  /\ (forall (w w' : session) (k : nat) (e : exn) (now : Q) (uuid4 : string),
        process_audio_async_asr k (AsrRaises e) now uuid4 w = Some w' ->
        client w' = client w /\ strategies w' = strategies w
        /\ log w' = log w /\ sent w' = sent w
        /\ exists t, tasks w !! k = Some t
                     /\ tasks w' = <[k := set_pc (Failed e) t]> (tasks w))
  /\ (forall (w w' : session) (k : nat) (now : Q) (uuid4 : string),
        process_audio_async_asr k (AsrReturns None) now uuid4 w = Some w' ->
        Client.scratch_buffer (client w') = []
        /\ Client.buffer (client w') = Client.buffer (client w)
        /\ sent w' = sent w /\ log w' = log w
        /\ exists t, tasks w !! k = Some t
             /\ tasks w' = <[k := set_pc Finished t]> (tasks w)
             /\ forall self, strategies w !! task_self t = Some self ->
                  strategies w' !! task_self t
                  = Some (Strategy.set_processing_flag false self)).
Proof.
  split; [|split].
  - intros w w' k e H. apply process_audio_async_vad_inv in H.
    destruct H as (t & spt & stt & self & Ht & _ & _ & ->).
    proj. repeat split; try reflexivity.
    exists t. split; [exact Ht|]. rewrite update_task_tasks, Ht. reflexivity.
  - intros w w' k e now uuid4 H. apply process_audio_async_asr_inv in H.
    destruct H as (t & spt & stt & Ht & _ & ->).
    proj. repeat split; try reflexivity.
    exists t. split; [exact Ht|]. rewrite update_task_tasks, Ht. reflexivity.
  - intros w w' k now uuid4 H. apply process_audio_async_asr_inv in H.
    destruct H as (t & spt & stt & Ht & _ & ->).
    rewrite finish_chunk_client, finish_chunk_sent, finish_chunk_log.
    repeat split; try reflexivity.
    exists t. split; [exact Ht|]. split.
    + rewrite finish_chunk_tasks, Ht. reflexivity.
    + intros self Hs. rewrite finish_chunk_strategies, Hs.
      apply list_lookup_insert_eq. apply lookup_lt_Some in Hs. exact Hs.
Qed.

Lemma collaborator_exceptions_propagate_witness :
  exists w w',
    session_A = Some w
    /\ process_audio_async_vad 0 (VadRaises (CollaboratorError "vad")) w
       = Some w'
    /\ client w' = client w /\ strategies w' = strategies w.
Proof.
  destruct session_A as [w|] eqn:E; [|discriminate].
  destruct (process_audio_async_vad 0
              (VadRaises (CollaboratorError "vad")) w) as [w'|] eqn:E';
    [|vm_compute in E; injection E as <-; discriminate].
  exists w, w'. split; [reflexivity|]. split; [exact E'|].
  destruct (proj1 collaborator_exceptions_propagate w w' 0%nat _ E')
    as (Hc & Hs & _).
  split; assumption.
Defined.

(** ** An empty answer of the detector *)

(** C3, as stated, fails: in scenario B, with 0.5 s of audio received after
    the promotion, an empty answer of the detector empties the pending buffer
    as well. *)
Lemma empty_detection_drops_pending_audio :
  exists w w',
    session_B = Some w
    /\ Client.buffer (client w) = bytes 10
    /\ process_audio_async_vad 0 (VadReturns []) w = Some w'
    /\ Client.buffer (client w') = []
    /\ Client.buffer (client w') <> Client.buffer (client w).
Proof.
  eexists. eexists. vm_compute. repeat split; try reflexivity. discriminate.
Qed.

(** C3, amended. When the detector returns the empty list, the working
    buffer and the pending buffer are both cleared, nothing is sent, the
    recogniser is not called, the task ends and the [processing_flag] of its
    strategy becomes false. *)
Theorem empty_detection_clears_both_buffers (w w' : session) (k : nat) :
  process_audio_async_vad k (VadReturns []) w = Some w' ->
  Client.scratch_buffer (client w') = []
  /\ Client.buffer (client w') = []
  /\ sent w' = sent w
  /\ transcribed w' = transcribed w
  /\ exists t, tasks w !! k = Some t
       /\ tasks w' = <[k := set_pc Finished t]> (tasks w)
       /\ forall self, strategies w !! task_self t = Some self ->
            strategies w' !! task_self t
            = Some (Strategy.set_processing_flag false self).
Proof.
  intros H. apply process_audio_async_vad_inv in H.
  destruct H as (t & spt & stt & self & Ht & _ & Hs & ->).
  cbn [last]. proj. repeat split; try reflexivity.
  exists t. split; [exact Ht|]. split.
  - rewrite update_task_tasks. proj. rewrite Ht. reflexivity.
  - intros self' Hs'. apply update_strategy_lookup. exact Hs'.
Qed.

Lemma empty_detection_clears_both_buffers_witness :
  exists w w',
    session_B = Some w
    /\ process_audio_async_vad 0 (VadReturns []) w = Some w'
    /\ Client.scratch_buffer (client w') = []
    /\ Client.buffer (client w') = [].
Proof.
  destruct session_B as [w|] eqn:E; [|discriminate].
  destruct (process_audio_async_vad 0 (VadReturns []) w) as [w'|] eqn:E';
    [|vm_compute in E; injection E as <-; discriminate].
  exists w, w'. split; [reflexivity|]. split; [exact E'|].
  destruct (empty_detection_clears_both_buffers w w' 0%nat E')
    as (Hsb & Hb & _).
  split; assumption.
Defined.

(** ** Timing of the results *)









(** ** Admission *)



(** ** Configuration updates *)

(** C10. Every call of [Client.update_config] that returns leaves the client
    with a strategy object that did not exist before, whose
    [processing_flag] is false, whatever the tasks in flight and the flags of
    the earlier objects; the tasks, the earlier objects and both buffers are
    untouched.  So a configuration update received while the first chunk is
    in flight lets the next frame start a second task, without the overlap
    warning, while the first is still in flight. *)
Theorem update_config_resets_guard :
  (forall (w w' : session) (config_data : ConfigData),
      update_config config_data w = Returns tt w' ->
      let i' := Client.buffering_strategy (client w') in
      i' = length (strategies w)
      /\ strategies w !! i' = None
      /\ flag_of w' i' = Some false
      /\ tasks w' = tasks w
      /\ (forall j s, strategies w !! j = Some s ->
                      strategies w' !! j = Some s)
      /\ Client.buffer (client w') = Client.buffer (client w)
      /\ Client.scratch_buffer (client w') = Client.scratch_buffer (client w))
  /\ (exists w1 w2 w3,
        run_fresh [BinaryFrame 100 (bytes 40)] = Some w1
        /\ flag_of w1 0 = Some true
        /\ map in_flight (tasks w1) = [true]
        /\ step w1 (ConfigFrame same_args None) = Some w2
        /\ Client.buffering_strategy (client w2) = 1%nat
        /\ flag_of w2 0 = Some true /\ flag_of w2 1 = Some false
        /\ step w2 (BinaryFrame 101 (bytes 40)) = Some w3
        /\ map in_flight (tasks w3) = [true; true]
        /\ map task_self (tasks w3) = [0%nat; 1%nat]
        /\ log w3 = []).
Proof.
  split.
  - intros w w' d H. unfold update_config in H.
    destruct (create_buffering_strategy _ _ _) as [s|e] eqn:Es;
      [|discriminate].
    injection H as <-. cbn.
    assert (Hflag : Strategy.processing_flag s = false).
    { unfold create_buffering_strategy in Es.
      destruct (String.eqb _ _); [|discriminate].
      unfold SilenceAtEndOfChunk_init in Es.
      destruct (float_of _); [|discriminate].
      destruct (float_of _); [|discriminate].
      injection Es as <-. reflexivity. }
    repeat split.
    + apply lookup_ge_None. lia.
    + unfold flag_of. cbn. rewrite lookup_app_r by lia.
      rewrite Nat.sub_diag. cbn. rewrite Hflag. reflexivity.
    + intros j s0 Hj. apply lookup_app_l_Some. exact Hj.
  - eexists. eexists. eexists. vm_compute. repeat split; reflexivity.
Qed.

Lemma update_config_resets_guard_witness :
  exists w1 w2,
    run_fresh [BinaryFrame 100 (bytes 40)] = Some w1
    /\ update_config same_args w1 = Returns tt w2
    /\ flag_of w1 (Client.buffering_strategy (client w1)) = Some true
    /\ flag_of w2 (Client.buffering_strategy (client w2)) = Some false.
Proof.
  destruct (run_fresh [BinaryFrame 100 (bytes 40)]) as [w1|] eqn:E1;
    [|discriminate].
  destruct (update_config same_args w1) as [[] w2|e w2] eqn:E2.
  - exists w1, w2. split; [reflexivity|]. split; [exact E2|]. split.
    + vm_compute in E1. injection E1 as <-. reflexivity.
    + exact (proj1 (proj2 (proj2
               (proj1 update_config_resets_guard w1 w2 same_args E2)))).
  - vm_compute in E1. injection E1 as <-. discriminate.
Defined.

(** ** Conservation of the audio bytes *)


Lemma len_app {A} (a b : list A) : Py.len (a ++ b) = (Py.len a + Py.len b)%Z.
Proof. unfold Py.len. rewrite length_app. lia. Qed.


Lemma is_delivering_in_flight t :
  is_delivering (task_pc t) = true -> in_flight t = true.
Proof. unfold in_flight. destruct (task_pc t); cbn; congruence. Qed.

Lemma delivering_spec w :
  delivering w = true
  <-> exists k t, tasks w !! k = Some t /\ is_delivering (task_pc t) = true.
Proof.
  unfold delivering. rewrite existsb_exists. split.
  - intros (t & Hin & Ht). apply list_elem_of_In in Hin.
    apply list_elem_of_lookup in Hin. destruct Hin as [k Hk]. eauto.
  - intros (k & t & Hk & Ht). exists t. split; [|exact Ht].
    apply list_elem_of_In. apply list_elem_of_lookup. eauto.
Qed.

Lemma quiescent_spec w :
  quiescent w = true
  <-> forall k t, tasks w !! k = Some t -> in_flight t = false.
Proof.
  unfold quiescent. rewrite forallb_forall. split.
  - intros H k t Hk. apply negb_true_iff. apply H.
    apply list_elem_of_In. apply list_elem_of_lookup. eauto.
  - intros H t Hin. apply list_elem_of_In in Hin.
    apply list_elem_of_lookup in Hin. destruct Hin as [k Hk].
    apply negb_true_iff. eauto.
Qed.

Lemma no_failure_spec w :
  no_failure w = true
  <-> forall k t, tasks w !! k = Some t -> failed t = false.
Proof.
  unfold no_failure. rewrite forallb_forall. split.
  - intros H k t Hk. apply negb_true_iff. apply H.
    apply list_elem_of_In. apply list_elem_of_lookup. eauto.
  - intros H t Hin. apply list_elem_of_In in Hin.
    apply list_elem_of_lookup in Hin. destruct Hin as [k Hk].
    apply negb_true_iff. eauto.
Qed.



(** The in-flight task moves on: it stays the only one that can be in
    flight, and it alone decides whether the session is delivering. *)
Lemma retask w w' k t p :
  sole_in_flight w -> tasks w !! k = Some t -> in_flight t = true ->
  tasks w' = <[k := set_pc p t]> (tasks w) ->
  sole_in_flight w' /\ delivering w' = is_delivering p.
Proof.
  intros Hsole Hk Hfl Ht'.
  assert (Hlt : (k < length (tasks w))%nat) by (eapply lookup_lt_Some; eauto).
  assert (Honly : forall i ti, tasks w' !! i = Some ti ->
                               in_flight ti = true -> i = k).
  { intros i ti Hi Hti. destruct (decide (i = k)) as [|Hne]; [assumption|].
    rewrite Ht', list_lookup_insert_ne in Hi by congruence.
    eapply Hsole; eauto. }
  split.
  - intros i j ti tj Hi Hj Hti Htj.
    rewrite (Honly i ti Hi Hti), (Honly j tj Hj Htj). reflexivity.
  - destruct (is_delivering p) eqn:Ep.
    + apply delivering_spec. exists k, (set_pc p t). split; [|exact Ep].
      rewrite Ht'. apply list_lookup_insert_eq. exact Hlt.
    + destruct (delivering w') eqn:E; [|reflexivity].
      apply delivering_spec in E. destruct E as (i & ti & Hi & Hd).
      pose proof (Honly i ti Hi (is_delivering_in_flight _ Hd)). subst i.
      rewrite Ht', list_lookup_insert_eq in Hi by exact Hlt.
      injection Hi as <-. cbn in Hd. congruence.
Qed.

(** A task is spawned in a quiescent session. *)
Lemma spawn_quiescent w w' t :
  quiescent w = true -> tasks w' = tasks w ++ [t] -> task_pc t = Created ->
  sole_in_flight w' /\ delivering w' = false.
Proof.
  intros Hq Ht' Hpc.
  pose proof (proj1 (quiescent_spec w) Hq) as Hnone.
  assert (Honly : forall i ti, tasks w' !! i = Some ti ->
                               in_flight ti = true ->
                               i = length (tasks w) /\ ti = t).
  { intros i ti Hi Hti. rewrite Ht' in Hi.
    apply lookup_app_Some in Hi. destruct Hi as [Hi|[Hge Hi]].
    - rewrite (Hnone i ti Hi) in Hti. discriminate.
    - destruct (i - length (tasks w))%nat eqn:E; cbn in Hi; [|discriminate].
      injection Hi as <-. split; [lia | reflexivity]. }
  split.
  - intros i j ti tj Hi Hj Hti Htj.
    destruct (Honly i ti Hi Hti) as [-> _].
    destruct (Honly j tj Hj Htj) as [-> _]. reflexivity.
  - destruct (delivering w') eqn:E; [|reflexivity].
    apply delivering_spec in E. destruct E as (i & ti & Hi & Hd).
    destruct (Honly i ti Hi (is_delivering_in_flight _ Hd)) as [_ ->].
    rewrite Hpc in Hd. discriminate.
Qed.

Lemma process_audio_accounts i now w :
  let w' := process_audio i now w in
  appended w' = appended w /\ delivered w' = delivered w
  /\ remaining w' = remaining w
  /\ (tasks w' = tasks w
      \/ exists t, tasks w' = tasks w ++ [t] /\ task_pc t = Created).
Proof.
  unfold process_audio, appended, delivered, remaining.
  destruct (strategies w !! i) as [self|]; [|cbv zeta; auto].
  destruct (exceeds_chunk self _); cbv zeta; proj.
  - assert (Htr : transcribed (if Strategy.processing_flag self
                               then logging (Warning overlap_warning) w
                               else w) = transcribed w)
      by (destruct (Strategy.processing_flag self); reflexivity).
    assert (Hts : tasks (if Strategy.processing_flag self
                         then logging (Warning overlap_warning) w
                         else w) = tasks w)
      by (destruct (Strategy.processing_flag self); reflexivity).
    rewrite Htr, Hts.
    repeat split.
    + destruct (Client.connect_time (client w));
        [|destruct (0 <? Py.len (Client.buffer (client w)))%Z]; reflexivity.
    + destruct (Client.connect_time (client w));
        [|destruct (0 <? Py.len (Client.buffer (client w)))%Z];
        cbn; rewrite len_app; unfold Py.len; cbn; lia.
    + right. eexists. split; reflexivity.
  - repeat split.
    + destruct (Client.connect_time (client w));
        [|destruct (0 <? Py.len (Client.buffer (client w)))%Z]; reflexivity.
    + destruct (Client.connect_time (client w));
        [|destruct (0 <? Py.len (Client.buffer (client w)))%Z]; reflexivity.
    + left. reflexivity.
Qed.

Lemma handle_config_accounts d r w :
  let w' := handle_config d r w in
  tasks w' = tasks w /\ transcribed w' = transcribed w
  /\ Client.buffer (client w') = Client.buffer (client w)
  /\ Client.scratch_buffer (client w') = Client.scratch_buffer (client w)
  /\ Client.session_audio_buffer (client w')
     = Client.session_audio_buffer (client w).
Proof.
  unfold handle_config, update_config.
  destruct (config_data_empty d).
  - destruct r; cbn; auto.
  - destruct (create_buffering_strategy _ _ _); [|cbn; auto].
    destruct r; cbn; auto.
Qed.





Ltac task_list Hk :=
  rewrite ?finish_chunk_tasks, ?update_task_tasks; proj; rewrite Hk;
  reflexivity.

Ltac in_flight_from Hpc := unfold in_flight; rewrite Hpc; reflexivity.



Lemma new_session_initial env u j c rate width lst now w0 :
  new_session env u j c rate width lst now = Some w0 ->
  tasks w0 = [] /\ sent w0 = [] /\ transcribed w0 = []
  /\ Client.buffer (client w0) = []
  /\ Client.scratch_buffer (client w0) = []
  /\ Client.session_audio_buffer (client w0) = []
  /\ Client.connect_time (client w0) = None
  /\ Client.buffering_strategy (client w0) = 0%nat
  /\ exists s, strategies w0 = [s] /\ Strategy.start_time s = None
               /\ Strategy.processing_flag s = false.
Proof.
  unfold new_session, Client_init. intros H.
  destruct (create_buffering_strategy _ _ _) as [s|e] eqn:Es;
    [|discriminate].
  injection H as <-. cbn. repeat split.
  exists s. split; [reflexivity|].
  unfold create_buffering_strategy in Es.
  destruct (String.eqb _ _); [|discriminate].
  unfold SilenceAtEndOfChunk_init in Es.
  destruct (float_of _); [|discriminate].
  destruct (float_of _); [|discriminate].
  injection Es as <-. split; reflexivity.
Qed.





(** ** The order of the results *)

Lemma started_ok_transfer w w' t :
  connect_ok w w' -> started_ok w t -> started_ok w' t.
Proof.
  unfold started_ok. intros Hc H.
  destruct (task_pc t); try exact I;
    destruct H as (ct & Hct & E); exists ct; split; auto.
Qed.

Lemma current_ok_bound L T T' w w' :
  timeline L T w -> T <= T' -> current_ok T T' w w' ->
  forall s' v,
    strategies w' !! Client.buffering_strategy (client w') = Some s' ->
    Strategy.start_time s' = Some v ->
    v <= T' /\ forall k t, tasks w !! k = Some t -> task_start_time t <= v.
Proof.
  intros Htl HT Hcur s' v Hs' Hv.
  destruct (Hcur s' v Hs' Hv) as [(s & Hs & Hsv)|[H1 H2]].
  - destruct (tl_current _ _ _ Htl s v Hs Hsv) as [Hle Hall].
    split; [lra | exact Hall].
  - split; [exact H2|]. intros k t Hk.
    destruct (tl_tasks _ _ _ Htl k t Hk) as [_ Hle]. lra.
Qed.



Lemma older_idle_spec w k :
  older_idle w k = true
  <-> forall i ti, (i < k)%nat -> tasks w !! i = Some ti ->
                   in_flight ti = false.
Proof.
  unfold older_idle. rewrite forallb_forall. split.
  - intros H i ti Hi Hl. apply negb_true_iff. apply H.
    apply list_elem_of_In. apply elem_of_take. eauto.
  - intros H t Hin. apply list_elem_of_In in Hin.
    apply elem_of_take in Hin. destruct Hin as (i & Hi & Hlt).
    apply negb_true_iff. eauto.
Qed.

(** The oldest task in flight takes a step; when the step sends a payload,
    it is the one the task was waiting to send, and the task ends. *)
Lemma timeline_retask L T T' w w' k t p :
  timeline L T w -> T <= T' ->
  tasks w !! k = Some t -> in_flight t = true -> older_idle w k = true ->
  tasks w' = <[k := set_pc p t]> (tasks w) ->
  Client.last_start_time (client w') = Client.last_start_time (client w) ->
  connect_ok w w' -> current_ok T T' w w' ->
  started_ok w' (set_pc p t) ->
  (results (sent w') = results (sent w)
   \/ exists payload tr,
        results (sent w') = results (sent w) ++ [payload]
        /\ p = Finished /\ task_pc t = AwaitSend payload tr) ->
  timeline L T' w'.
Proof.
  intros Htl HT Hk Hfl Hold Ht' Hl Hc Hcur Hst Hres.
  pose proof (current_ok_bound L T T' w w' Htl HT Hcur) as Hb.
  pose proof (proj1 (older_idle_spec w k) Hold) as Hidle.
  destruct Htl as [Il It Is Ic Ist If Ir Io].
  assert (Hlt : (k < length (tasks w))%nat) by (eapply lookup_lt_Some; eauto).
  assert (Hlook : forall j tj, tasks w' !! j = Some tj ->
                    (j = k /\ tj = set_pc p t)
                    \/ (j <> k /\ tasks w !! j = Some tj)).
  { intros j tj Hj. rewrite Ht' in Hj.
    apply list_lookup_insert_Some in Hj.
    destruct Hj as [(-> & <- & _)|[Hne Hj]]; auto. }
  assert (Hkeys : forall j tj, tasks w' !! j = Some tj ->
                    exists tj0, tasks w !! j = Some tj0
                      /\ task_start_time tj = task_start_time tj0
                      /\ task_default_start_time tj
                         = task_default_start_time tj0).
  { intros j tj Hj. destruct (Hlook j tj Hj) as [[-> ->]|[_ Hj']].
    - exists t. auto.
    - exists tj. auto. }
  assert (Hfin : forall j tj, tasks w !! j = Some tj ->
                   task_pc tj = Finished -> tasks w' !! j = Some tj).
  { intros j tj Hj Hpc. rewrite Ht', list_lookup_insert_ne; [exact Hj|].
    intros ->. assert (tj = t) by congruence. subst tj.
    unfold in_flight in Hfl. rewrite Hpc in Hfl. discriminate. }
  (* the start time of an earlier result is not after that of task [k] *)
  assert (Hearlier : forall a ct,
            In a (results (sent w)) ->
            Client.connect_time (client w) = Some ct ->
            p_startTime a <= Py.round3 (start_transcribe_time_of ct t)).
  { intros a ct Ha Hct.
    destruct (Ir a Ha) as (k' & t' & ct' & Hk' & Hpc' & Hct' & E).
    assert (ct' = ct) by congruence. subst ct'. rewrite E.
    apply round3_monotone. unfold start_transcribe_time_of.
    destruct (It k' t' Hk') as [-> _]. destruct (It k t Hk) as [-> _].
    apply start_transcribe_time_monotone.
    destruct (lt_eq_lt_dec k' k) as [[Hlt'| ->]|Hgt].
    - eapply Is; eauto.
    - assert (t' = t) by congruence. subst t'. lra.
    - exfalso. assert (Hno : in_flight t = false).
      { eapply (If k k' t t'); eauto. rewrite Hpc'. discriminate. }
      congruence. }
  split.
  - congruence.
  - intros j tj Hj. destruct (Hkeys j tj Hj) as (tj0 & Hj0 & E1 & E2).
    destruct (It j tj0 Hj0). rewrite E1, E2. split; [auto|lra].
  - intros i j ti tj Hij Hi Hj.
    destruct (Hkeys i ti Hi) as (ti0 & Hi0 & -> & _).
    destruct (Hkeys j tj Hj) as (tj0 & Hj0 & -> & _).
    eapply Is; eauto.
  - intros s v Hs Hv. destruct (Hb s v Hs Hv) as [H1 H2].
    split; [exact H1|]. intros j tj Hj.
    destruct (Hkeys j tj Hj) as (tj0 & Hj0 & -> & _). eauto.
  - intros j tj Hj. destruct (Hlook j tj Hj) as [[-> ->]|[_ Hj']].
    + exact Hst.
    + eapply started_ok_transfer; eauto.
  - intros i j ti tj Hij Hi Hj Hne.
    destruct (Hlook j tj Hj) as [[-> ->]|[Hnj Hj']].
    + destruct (Hlook i ti Hi) as [[-> ->]|[_ Hi']]; [lia|].
      eapply Hidle; eauto.
    + destruct (Hlook i ti Hi) as [[-> ->]|[_ Hi']].
      * exfalso. assert (Hno : in_flight t = false) by (eapply If; eauto).
        congruence.
      * eapply If; eauto.
  - intros a Ha.
    destruct Hres as [Hr|(payload & tr & Hr & -> & Hpc)]; rewrite Hr in Ha.
    + destruct (Ir a Ha) as (k' & t' & ct & Hk' & Hpc' & Hct & E).
      exists k', t', ct. repeat split; auto.
    + apply in_app_or in Ha. destruct Ha as [Ha|[<-|[]]].
      * destruct (Ir a Ha) as (k' & t' & ct & Hk' & Hpc' & Hct & E).
        exists k', t', ct. repeat split; auto.
      * pose proof (Ist k t Hk) as Hs. unfold started_ok in Hs.
        rewrite Hpc in Hs. destruct Hs as (ct & Hct & E).
        exists k, (set_pc Finished t), ct. repeat split; auto.
        rewrite Ht'. apply list_lookup_insert_eq. exact Hlt.
  - intros i j a b Hij Hi Hj.
    destruct Hres as [Hr|(payload & tr & Hr & -> & Hpc)];
      rewrite Hr in Hi, Hj; [eapply Io; eauto|].
    apply lookup_snoc_Some in Hj. destruct Hj as [[_ Hj]|[-> <-]].
    + apply lookup_snoc_Some in Hi. destruct Hi as [[_ Hi]|[-> _]].
      * eapply Io; eauto.
      * apply lookup_lt_Some in Hj. lia.
    + apply lookup_snoc_Some in Hi. destruct Hi as [[_ Hi]|[-> _]]; [|lia].
      pose proof (Ist k t Hk) as Hs. unfold started_ok in Hs.
      rewrite Hpc in Hs. destruct Hs as (ct & Hct & E). rewrite E.
      apply Hearlier; [|exact Hct].
      apply list_elem_of_In. apply list_elem_of_lookup. eauto.
Qed.

Lemma results_snoc fs f :
  results (fs ++ [f])
  = results fs ++ match f with ResultText p => [p] | _ => [] end.
Proof.
  unfold results. rewrite flat_map_app. cbn. rewrite app_nil_r. reflexivity.
Qed.

Ltac results_same :=
  proj; rewrite ?results_snoc, ?app_nil_r; reflexivity.



Lemma connect_ok_same w w' :
  Client.connect_time (client w') = Client.connect_time (client w) ->
  connect_ok w w'.
Proof. intros H ct Hct. congruence. Qed.

Lemma process_audio_frame i now w :
  let w' := process_audio i now w in
  sent w' = sent w
  /\ Client.buffering_strategy (client w')
     = Client.buffering_strategy (client w)
  /\ connect_ok w w'.
Proof.
  unfold process_audio, connect_ok.
  destruct (strategies w !! i) as [self|]; [|cbv zeta; auto].
  destruct (exceeds_chunk self _); cbv zeta; proj;
    destruct (Client.connect_time (client w)) eqn:Ect;
    try destruct (0 <? Py.len (Client.buffer (client w)))%Z;
    try destruct (Strategy.processing_flag self);
    (split; [reflexivity|]); (split; [reflexivity|]);
    intros ct Hct; cbn; congruence.
Qed.





Ltac client_same := rewrite ?finish_chunk_client; proj; reflexivity.

Ltac strategies_same :=
  proj; rewrite ?finish_chunk_strategies;
  repeat rewrite update_strategy_strategies; proj; reflexivity.



Ltac retask Htl HT Hk Hpc Hold :=
  eapply (timeline_retask _ _ _ _ _ _ _ _ Htl HT Hk);
  [ in_flight_from Hpc | exact Hold | task_list Hk | client_same
  | apply connect_ok_same; client_same | .. ].







(** * Further properties of the session engine *)

(** ** The shipped detector under the trigger *)



(** ** A chunk that is not yet recognised *)



(** ** What the tasks and the configuration leave alone *)

Lemma resume_client_static k r w w' :
  resume k r w = Some w' ->
  Client.connect_time (client w') = Client.connect_time (client w)
  /\ Client.session_audio_buffer (client w')
     = Client.session_audio_buffer (client w).
Proof.
  destruct r as [now|o|o now uuid4|first second]; cbn [resume]; intros H.
  - apply process_audio_async_start_inv in H.
    destruct H as (t & _ & _ & ->).
    destruct (Client.connect_time (client w)) eqn:E; proj; auto.
  - apply process_audio_async_vad_inv in H.
    destruct H as (t & spt & stt & self & _ & _ & _ & ->).
    destruct o as [rs|e]; [|proj; auto].
    destruct (last rs); [|proj; auto].
    destruct (last_segment_should_end_before self (client w));
      [|proj; auto].
    destruct (should_transcribe _ _); proj; auto.
  - apply process_audio_async_asr_inv in H.
    destruct H as (t & spt & stt & _ & _ & ->).
    destruct o as [[tr|]|e];
      [|rewrite finish_chunk_client; auto|proj; auto].
    destruct (tr_text tr); [|rewrite finish_chunk_client; auto].
    destruct (tr_duration tr); cbv zeta; proj; auto.
  - apply process_audio_async_send_inv in H.
    destruct H as (t & payload & tr & _ & _ & ->).
    unfold after_send.
    destruct first as [|[]]; try (proj; auto; fail);
      try (rewrite finish_chunk_client; proj; auto; fail).
    destruct second; [rewrite finish_chunk_client|]; proj; auto.
Qed.

Lemma handle_config_connect_time d r w :
  Client.connect_time (client (handle_config d r w))
  = Client.connect_time (client w).
Proof.
  unfold handle_config, update_config.
  destruct (config_data_empty d).
  - destruct r; reflexivity.
  - destruct (create_buffering_strategy _ _ _); [|reflexivity].
    destruct r; reflexivity.
Qed.

Lemma handle_binary_connect_ok now data w :
  connect_ok w (handle_binary now data w).
Proof.
  unfold handle_binary, Client_process_audio.
  assert (Hproc : forall w1,
            Client.connect_time (client w1) = Client.connect_time (client w) ->
            connect_ok w
              (process_audio (Client.buffering_strategy (client w1)) now w1)).
  { intros w1 H1 ct Hct.
    destruct (process_audio_frame (Client.buffering_strategy (client w1))
                now w1) as (_ & _ & Hc).
    apply Hc. congruence. }
  destruct data as [|b data].
  - cbn [pipelines set_client]. destruct (pipelines w).
    + apply Hproc. reflexivity.
    + intros ct Hct. exact Hct.
  - unfold Client.append_audio_data.
    destruct (Py.truediv _ _).
    + cbn [pipelines set_client]. destruct (pipelines w).
      * apply Hproc. reflexivity.
      * intros ct Hct. exact Hct.
    + intros ct Hct. exact Hct.
Qed.

Lemma step_connect_ok w e w' : step w e = Some w' -> connect_ok w w'.
Proof.
  destruct e as [now data|d r|k r]; cbn [step].
  - destruct (receiving w); [|discriminate]. intros [= <-].
    apply handle_binary_connect_ok.
  - destruct (receiving w); [|discriminate]. intros [= <-].
    apply connect_ok_same. apply handle_config_connect_time.
  - intros H. apply connect_ok_same.
    apply (resume_client_static k r w w' H).
Qed.

(** ** The connect time *)

(** X3. [connect_time] is set once: whatever frames arrive and however the
    tasks are scheduled, a connect time that is set keeps its value to the
    end of the run.  It is set by the first audio frame that is processed
    with a non-empty pending buffer, to the clock reading of that frame. *)
Theorem connect_time_set_once :
  (forall (es : list event) (w w' : session) (ct : Q),
      run w es = Some w' ->
      Client.connect_time (client w) = Some ct ->
      Client.connect_time (client w') = Some ct)
  /\ (forall (w : session) (now : Q) (audio_chunk : list byte)
        (self : Strategy.t),
        pipelines w = true ->
        strategies w !! Client.buffering_strategy (client w) = Some self ->
        Client.samples_width (client w) <> 0%Z ->
        Client.connect_time (client w) = None ->
        audio_chunk <> [] ->
        Client.connect_time (client (handle_binary now audio_chunk w))
        = Some now).
Proof.
  split.
  - induction es as [|e es IH]; intros w w' ct Hrun Hct.
    + injection Hrun as <-. exact Hct.
    + cbn [run] in Hrun.
      destruct (step w e) as [w1|] eqn:Hstep; [|discriminate].
      apply (IH w1 w' ct Hrun). apply (step_connect_ok w e w1 Hstep ct Hct).
  - intros w now data self Hp Hs Hw Hct Hne.
    unfold handle_binary. destruct data as [|b data]; [congruence|].
    unfold Client.append_audio_data, Py.truediv.
    destruct (Client.samples_width (client w) =? 0)%Z eqn:E;
      [apply Z.eqb_eq in E; congruence|].
    cbn [pipelines set_client]. rewrite Hp.
    unfold Client_process_audio, process_audio.
    cbn [client strategies set_client Client.buffering_strategy
         Client.with_buffers Client.connect_time Client.buffer].
    rewrite Hs, Hct.
    assert (Hpos : (0 <? Py.len (Client.buffer (client w) ++ b :: data))%Z
                   = true).
    { apply Z.ltb_lt. rewrite len_app. unfold Py.len. cbn [length]. lia. }
    rewrite Hpos.
    destruct (exceeds_chunk self _); cbv zeta; proj;
      try destruct (Strategy.processing_flag self); reflexivity.
Qed.

Lemma connect_time_set_once_witness :
  exists w0 w w',
    fresh_session = Some w0
    /\ step w0 (BinaryFrame 100 (bytes 10)) = Some w
    /\ Client.connect_time (client w) = Some 100
    /\ run w [BinaryFrame 107 (bytes 40); Resume 0 (Start 108)] = Some w'
    /\ Client.connect_time (client w') = Some 100.
Proof.
  eexists. eexists. eexists.
  split; [vm_compute; reflexivity|].
  split; [vm_compute; reflexivity|].
  split; [vm_compute; reflexivity|].
  match goal with
  | |- run ?W ?ES = _ /\ _ =>
      split; [vm_compute; reflexivity|];
      refine (proj1 connect_time_set_once ES W _ 100 _ _);
      vm_compute; reflexivity
  end.
Defined.

(** ** The audio of the whole session *)

Lemma handle_binary_session_audio now data w :
  Client.session_audio_buffer (client (handle_binary now data w))
  = Client.session_audio_buffer (client w) ++ data.
Proof.
  unfold handle_binary, Client_process_audio.
  assert (Hproc : forall i w1,
            Client.session_audio_buffer (client (process_audio i now w1))
            = Client.session_audio_buffer (client w1)).
  { intros i w1. unfold process_audio.
    destruct (strategies w1 !! i) as [self|]; [|reflexivity].
    destruct (exceeds_chunk self _); cbv zeta; proj;
      destruct (Client.connect_time (client w1));
      try destruct (0 <? Py.len (Client.buffer (client w1)))%Z;
      try destruct (Strategy.processing_flag self); reflexivity. }
  destruct data as [|b data].
  - cbn [pipelines set_client]. rewrite app_nil_r.
    destruct (pipelines w); [rewrite Hproc|]; reflexivity.
  - unfold Client.append_audio_data.
    destruct (Py.truediv _ _); [|reflexivity].
    cbn [pipelines set_client].
    destruct (pipelines w); [rewrite Hproc|]; reflexivity.
Qed.

(** X4. [session_audio_buffer] holds the audio of every frame received, in the
    order of arrival, and nothing else: no task and no configuration message
    touches it, and promotions and clearings of the other buffers do not
    reach it. *)
Theorem session_audio_is_all_audio (es : list event) :
  forall (w w' : session),
    run w es = Some w' ->
    Client.session_audio_buffer (client w')
    = Client.session_audio_buffer (client w) ++ concat (map audio_of es).
Proof.
  induction es as [|e es IH]; intros w w' Hrun.
  - injection Hrun as <-. cbn. rewrite app_nil_r. reflexivity.
  - cbn [run] in Hrun.
    destruct (step w e) as [w1|] eqn:Hstep; [|discriminate].
    rewrite (IH w1 w' Hrun). cbn [map concat]. rewrite app_assoc.
    f_equal.
    destruct e as [now data|d r|k r]; cbn [step audio_of] in *.
    + destruct (receiving w); [|discriminate]. injection Hstep as <-.
      apply handle_binary_session_audio.
    + destruct (receiving w); [|discriminate]. injection Hstep as <-.
      rewrite app_nil_r.
      apply (handle_config_accounts d r w).
    + rewrite app_nil_r. apply (resume_client_static k r w w1 Hstep).
Qed.

Lemma session_audio_is_all_audio_witness :
  exists w0 w,
    fresh_session = Some w0
    /\ run w0 two_recognitions = Some w
    /\ Client.session_audio_buffer (client w) = bytes 90.
Proof.
  eexists. eexists.
  split; [vm_compute; reflexivity|].
  match goal with
  | |- run ?W ?ES = _ /\ _ =>
      split; [vm_compute; reflexivity|];
      etransitivity;
      [ refine (session_audio_is_all_audio ES W _ _); vm_compute; reflexivity
      | vm_compute; reflexivity ]
  end.
Defined.

(** ** The sending block *)

(** X5. A send that fails (any exception but a first [TypeError], or a second
    failure after it) ends the task where it stands: the payload is not
    recorded in the transcript, nothing goes out, the working buffer is not
    cleared, the file counter is not advanced and [processing_flag] keeps its
    value. *)
Theorem failed_send_leaves_chunk (w w' : session) (k : nat) (t : Task)
    (first second : send_outcome) (e : exn) :
  tasks w !! k = Some t ->
  (first = SendRaises e /\ e <> TypeError
   \/ first = SendRaises TypeError /\ second = SendRaises e) ->
  process_audio_async_send k first second w = Some w' ->
  client w' = client w /\ strategies w' = strategies w
  /\ sent w' = sent w /\ log w' = log w
  /\ tasks w' = <[k := set_pc (Failed e) t]> (tasks w).
Proof.
  intros Hk Hcase H.
  apply process_audio_async_send_inv in H.
  destruct H as (t0 & payload & tr & Hk0 & Hpc & ->).
  assert (t0 = t) by congruence. subst t0.
  assert (Hw : forall e0, tasks (update_task k (Failed e0) w)
                          = <[k := set_pc (Failed e0) t]> (tasks w))
    by (intros e0; rewrite update_task_tasks, Hk; reflexivity).
  destruct Hcase as [[-> Hne]|[-> ->]].
  - destruct e; try congruence; proj; auto.
  - proj. auto.
Qed.

Lemma failed_send_leaves_chunk_witness :
  exists w0 w w',
    fresh_session = Some w0
    /\ run w0 (firstn 4 recognition_events) = Some w
    /\ process_audio_async_send 0 (SendRaises (CollaboratorError "closed"))
         SendOk w = Some w'
    /\ Client.scratch_buffer (client w') = bytes 40
    /\ flag_of w' 0 = Some true
    /\ client w' = client w.
Proof.
  eexists. eexists. eexists.
  split; [vm_compute; reflexivity|].
  split; [vm_compute; reflexivity|].
  split; [vm_compute; reflexivity|].
  split; [vm_compute; reflexivity|].
  split; [vm_compute; reflexivity|].
  match goal with
  | |- client ?W' = client ?W =>
      refine (proj1 (failed_send_leaves_chunk W W' 0%nat _ _ SendOk
                       (CollaboratorError "closed") _ _ _))
  end.
  - vm_compute. reflexivity.
  - left. split; [reflexivity | discriminate].
  - vm_compute. reflexivity.
Defined.

(** X6. After a [TypeError] of the first send the second attempt goes out: on a
    Starlette socket it is the recogniser's dictionary itself, sent with
    [send_json], not the payload; on a [websockets] socket the payload text
    again.  In both cases the payload is what the transcript records, the
    working buffer is cleared, the file counter advanced and
    [processing_flag] reset. *)
Theorem type_error_fallback (w w' : session) (k : nat) (t : Task)
    (payload : Payload) (tr : Transcription) (self : Strategy.t) :
  tasks w !! k = Some t ->
  task_pc t = AwaitSend payload tr ->
  strategies w !! task_self t = Some self ->
  process_audio_async_send k (SendRaises TypeError) SendOk w = Some w' ->
  sent w' = sent w ++ [ match websocket w with
                        | Starlette => ResultJson tr
                        | Websockets => ResultText payload
                        end ]
  /\ Client.transcript (client w') = Client.transcript (client w) ++ [payload]
  /\ Client.scratch_buffer (client w') = []
  /\ Client.file_counter (client w') = S (Client.file_counter (client w))
  /\ strategies w' !! task_self t
     = Some (Strategy.set_processing_flag false self).
Proof.
  intros Hk Hpc Hs H.
  apply process_audio_async_send_inv in H.
  destruct H as (t0 & p0 & tr0 & Hk0 & Hpc0 & ->).
  assert (t0 = t) by congruence. subst t0.
  assert (p0 = payload /\ tr0 = tr) as [-> ->] by (split; congruence).
  unfold after_send.
  rewrite finish_chunk_sent, finish_chunk_client, finish_chunk_strategies.
  proj. rewrite Hs. repeat split.
  apply list_lookup_insert_eq. apply lookup_lt_Some in Hs. exact Hs.
Qed.

Lemma type_error_fallback_witness :
  exists w0 w w',
    fresh_session = Some w0
    /\ run w0 (firstn 4 recognition_events) = Some w
    /\ process_audio_async_send 0 (SendRaises TypeError) SendOk w = Some w'
    /\ sent w' = [ResultJson hello]
    /\ Client.scratch_buffer (client w') = [].
Proof.
  eexists. eexists. eexists.
  split; [vm_compute; reflexivity|].
  split; [vm_compute; reflexivity|].
  match goal with
  | |- process_audio_async_send _ _ _ ?W = _ /\ _ =>
      split; [vm_compute; reflexivity|];
      split; [vm_compute; reflexivity|];
      match goal with
      | |- Client.scratch_buffer (client ?W') = _ =>
          refine (proj1 (proj2 (proj2 (type_error_fallback W W' 0%nat _ _ _ _
                                         _ _ _ _))))
      end
  end.
  - vm_compute. reflexivity.
  - vm_compute. reflexivity.
  - vm_compute. reflexivity.
  - vm_compute. reflexivity.
Defined.

(** ** The transcript *)

Lemma process_audio_transcript i now w :
  Client.transcript (client (process_audio i now w))
  = Client.transcript (client w).
Proof.
  unfold process_audio.
  destruct (strategies w !! i) as [self|]; [|reflexivity].
  destruct (exceeds_chunk self _); proj;
    destruct (Client.connect_time (client w));
    try destruct (0 <? Py.len (Client.buffer (client w)))%Z;
    try destruct (Strategy.processing_flag self); reflexivity.
Qed.

Lemma handle_binary_results now data w :
  results (sent (handle_binary now data w)) = results (sent w)
  /\ Client.transcript (client (handle_binary now data w))
     = Client.transcript (client w).
Proof.
  unfold handle_binary, Client_process_audio.
  assert (Hproc : forall w1,
            results (sent (process_audio
                             (Client.buffering_strategy (client w1)) now w1))
            = results (sent w1)
            /\ Client.transcript
                 (client (process_audio
                            (Client.buffering_strategy (client w1)) now w1))
               = Client.transcript (client w1)).
  { intros w1. rewrite process_audio_transcript.
    destruct (process_audio_frame (Client.buffering_strategy (client w1))
                now w1) as (-> & _). auto. }
  destruct data as [|b data].
  - cbn [pipelines set_client]. destruct (pipelines w).
    + destruct (Hproc (set_client (client w) w)). auto.
    + split; [results_same | reflexivity].
  - unfold Client.append_audio_data.
    destruct (Py.truediv _ _); [|auto].
    cbn [pipelines set_client]. destruct (pipelines w).
    + match goal with
      | |- context [process_audio _ now ?w1] => destruct (Hproc w1)
      end. auto.
    + split; [results_same | reflexivity].
Qed.

Lemma handle_config_results d r w :
  results (sent (handle_config d r w)) = results (sent w)
  /\ Client.transcript (client (handle_config d r w))
     = Client.transcript (client w).
Proof.
  unfold handle_config, update_config.
  destruct (config_data_empty d).
  - destruct r; split; try reflexivity; results_same.
  - destruct (create_buffering_strategy _ _ _); [|auto].
    destruct r; split; try reflexivity; results_same.
Qed.

(** What one step does to the results sent and to the transcript: nothing,
    or it records a payload in the transcript, sending it as text or not. *)
Lemma step_results w e w' :
  step w e = Some w' ->
  (results (sent w') = results (sent w)
   /\ (Client.transcript (client w') = Client.transcript (client w)
       \/ exists p, Client.transcript (client w')
                    = Client.transcript (client w) ++ [p]))
  \/ exists p, results (sent w') = results (sent w) ++ [p]
               /\ Client.transcript (client w')
                  = Client.transcript (client w) ++ [p].
Proof.
  destruct e as [now data|d r|k r]; cbn [step].
  - destruct (receiving w); [|discriminate]. intros [= <-].
    destruct (handle_binary_results now data w). auto.
  - destruct (receiving w); [|discriminate]. intros [= <-].
    destruct (handle_config_results d r w). auto.
  - destruct r as [now|o|o now uuid4|first second]; cbn [resume]; intros H.
    + apply process_audio_async_start_inv in H.
      destruct H as (t & _ & _ & ->). left.
      destruct (Client.connect_time (client w)); proj; auto.
    + apply process_audio_async_vad_inv in H.
      destruct H as (t & spt & stt & self & _ & _ & _ & ->). left.
      destruct o as [rs|e]; [|proj; auto].
      destruct (last rs); [|proj; auto].
      destruct (last_segment_should_end_before self (client w));
        [|proj; auto].
      destruct (should_transcribe _ _); proj; auto.
    + apply process_audio_async_asr_inv in H.
      destruct H as (t & spt & stt & _ & _ & ->). left.
      destruct o as [[tr|]|e];
        [|rewrite finish_chunk_client, finish_chunk_sent; auto|proj; auto].
      destruct (tr_text tr);
        [|rewrite finish_chunk_client, finish_chunk_sent; auto].
      destruct (tr_duration tr); cbv zeta; proj; auto.
    + apply process_audio_async_send_inv in H.
      destruct H as (t & payload & tr & _ & _ & ->).
      assert (Hok : forall f,
                results (sent (after_send k t payload f w))
                = results (sent w)
                  ++ match f with ResultText p => [p] | _ => [] end
                /\ Client.transcript (client (after_send k t payload f w))
                   = Client.transcript (client w) ++ [payload]).
      { intros f. unfold after_send.
        rewrite finish_chunk_client, finish_chunk_sent. proj.
        rewrite results_snoc. auto. }
      destruct first as [|e1].
      { right. exists payload. apply (Hok (ResultText payload)). }
      destruct e1; try (left; proj; auto; fail).
      destruct second as [|e2]; [|left; proj; auto].
      destruct (websocket w).
      * left. destruct (Hok (ResultJson tr)) as [Hr Ht].
        rewrite app_nil_r in Hr. eauto.
      * right. exists payload. apply (Hok (ResultText payload)).
Qed.

(** X7. Every result sent as a text frame is recorded in the client's
    transcript, in the order of sending: the results sent are a sublist of
    the transcript (which also holds the payloads whose sending fell back to
    the recogniser's dictionary). *)
Theorem results_are_recorded (env : Environ) (u j c : string)
    (rate width : Z) (lst now : Q) (w0 w : session) (es : list event) :
  new_session env u j c rate width lst now = Some w0 ->
  run w0 es = Some w ->
  sublist (results (sent w)) (Client.transcript (client w)).
Proof.
  intros H0 Hrun.
  assert (Hinit : sublist (results (sent w0)) (Client.transcript (client w0))).
  { destruct (new_session_initial _ _ _ _ _ _ _ _ _ H0) as (_ & -> & _).
    apply sublist_nil_l. }
  clear H0. revert w0 Hinit Hrun.
  induction es as [|e es IH]; intros w0 Hinit Hrun.
  - injection Hrun as <-. exact Hinit.
  - cbn [run] in Hrun.
    destruct (step w0 e) as [w1|] eqn:Hstep; [|discriminate].
    apply (IH w1); [|exact Hrun].
    destruct (step_results w0 e w1 Hstep)
      as [[-> [-> |(p & ->)]]|(p & -> & ->)].
    + exact Hinit.
    + apply sublist_inserts_r. exact Hinit.
    + apply sublist_app; [exact Hinit | reflexivity].
Qed.

Lemma results_are_recorded_witness :
  exists w0 w,
    fresh_session = Some w0
    /\ run w0 two_recognitions = Some w
    /\ sublist (results (sent w)) (Client.transcript (client w)).
Proof.
  eexists. eexists.
  split; [vm_compute; reflexivity|].
  match goal with
  | |- run ?W ?ES = _ /\ _ =>
      split; [vm_compute; reflexivity|];
      refine (results_are_recorded no_environ "user" "job" "connection"
                10 2 0 100 W _ ES _ _); vm_compute; reflexivity
  end.
Defined.

(** ** Results and recogniser calls *)

Lemma count_delivering_app l1 l2 :
  count_delivering (l1 ++ l2)
  = (count_delivering l1 + count_delivering l2)%nat.
Proof. induction l1 as [|t l1 IH]; cbn; [reflexivity | rewrite IH; lia]. Qed.

Lemma count_delivering_insert (l : list Task) k t t' :
  l !! k = Some t ->
  (count_delivering (<[k := t']> l)
   + (if is_delivering (task_pc t) then 1 else 0)
   = count_delivering l + (if is_delivering (task_pc t') then 1 else 0))%nat.
Proof.
  revert k. induction l as [|x l IH]; intros k Hk; [discriminate|].
  destruct k as [|k].
  - change (<[0%nat := t']> (x :: l)) with (t' :: l).
    change ((x :: l) !! 0%nat) with (Some x) in Hk.
    injection Hk as ->. cbn [count_delivering].
    destruct (is_delivering (task_pc t)), (is_delivering (task_pc t')); lia.
  - change (<[S k := t']> (x :: l)) with (x :: <[k := t']> l).
    change ((x :: l) !! S k) with (l !! k) in Hk.
    specialize (IH k Hk). cbn [count_delivering].
    destruct (is_delivering (task_pc t)), (is_delivering (task_pc t')),
      (is_delivering (task_pc x)); lia.
Qed.

Lemma process_audio_transcribed i now w :
  transcribed (process_audio i now w) = transcribed w.
Proof.
  unfold process_audio.
  destruct (strategies w !! i) as [self|]; [|reflexivity].
  destruct (exceeds_chunk self _); proj;
    try destruct (Strategy.processing_flag self); reflexivity.
Qed.

Lemma handle_binary_tasks now data w :
  transcribed (handle_binary now data w) = transcribed w
  /\ (tasks (handle_binary now data w) = tasks w
      \/ exists t, tasks (handle_binary now data w) = tasks w ++ [t]
                   /\ task_pc t = Created).
Proof.
  unfold handle_binary, Client_process_audio.
  assert (Hproc : forall w1,
            tasks w1 = tasks w -> transcribed w1 = transcribed w ->
            let w2 := process_audio (Client.buffering_strategy (client w1))
                        now w1 in
            transcribed w2 = transcribed w
            /\ (tasks w2 = tasks w
                \/ exists t, tasks w2 = tasks w ++ [t]
                             /\ task_pc t = Created)).
  { intros w1 Ht Htr w2. unfold w2.
    rewrite process_audio_transcribed, Htr. split; [reflexivity|].
    destruct (process_audio_accounts (Client.buffering_strategy (client w1))
                now w1) as (_ & _ & _ & H).
    rewrite Ht in H. exact H. }
  destruct data as [|b data].
  - cbn [pipelines set_client]. destruct (pipelines w).
    + apply (Hproc (set_client (client w) w)); reflexivity.
    + auto.
  - unfold Client.append_audio_data.
    destruct (Py.truediv _ _); [|auto].
    cbn [pipelines set_client]. destruct (pipelines w).
    + match goal with
      | |- context [process_audio _ now ?w1] =>
          apply (Hproc w1); reflexivity
      end.
    + auto.
Qed.

(** The books of one task step: the results sent, the calls of the
    recogniser and the tasks between call and clearing. *)
Lemma ledger_retask w w' k t p :
  tasks w !! k = Some t ->
  tasks w' = <[k := set_pc p t]> (tasks w) ->
  (length (results (sent w')) + (if is_delivering p then 1 else 0)
   + length (transcribed w)
   <= length (results (sent w))
      + (if is_delivering (task_pc t) then 1 else 0)
      + length (transcribed w'))%nat ->
  (length (results (sent w)) + count_delivering (tasks w)
   <= length (transcribed w))%nat ->
  (length (results (sent w')) + count_delivering (tasks w')
   <= length (transcribed w'))%nat.
Proof.
  intros Hk Ht' Hnum Hinv. rewrite Ht'.
  pose proof (count_delivering_insert (tasks w) k t (set_pc p t) Hk) as Hc.
  cbn [task_pc set_pc] in Hc.
  destruct (is_delivering p), (is_delivering (task_pc t)); lia.
Qed.

Ltac ledger Hk Hpc :=
  eapply ledger_retask; [exact Hk | task_list Hk | | eassumption];
  rewrite ?finish_chunk_sent, ?finish_chunk_transcribed; proj;
  rewrite ?results_snoc, ?length_app, ?Hpc; cbn; lia.

Lemma step_ledger w e w' :
  step w e = Some w' ->
  (length (results (sent w)) + count_delivering (tasks w)
   <= length (transcribed w))%nat ->
  (length (results (sent w')) + count_delivering (tasks w')
   <= length (transcribed w'))%nat.
Proof.
  intros H Hinv.
  destruct e as [now data|d r|k r]; cbn [step] in H.
  - destruct (receiving w); [|discriminate]. injection H as <-.
    destruct (handle_binary_results now data w) as [-> _].
    destruct (handle_binary_tasks now data w) as [-> [-> |(t & -> & Hpc)]].
    + exact Hinv.
    + rewrite count_delivering_app. cbn. rewrite Hpc. cbn. lia.
  - destruct (receiving w); [|discriminate]. injection H as <-.
    destruct (handle_config_results d r w) as [-> _].
    destruct (handle_config_accounts d r w) as (-> & -> & _).
    exact Hinv.
  - destruct r as [now|o|o now uuid4|first second]; cbn [resume] in H.
    + apply process_audio_async_start_inv in H.
      destruct H as (t & Hk & Hpc & ->).
      destruct (Client.connect_time (client w)); ledger Hk Hpc.
    + apply process_audio_async_vad_inv in H.
      destruct H as (t & spt & stt & self & Hk & Hpc & _ & ->).
      destruct o as [rs|e]; [|ledger Hk Hpc].
      destruct (last rs); [|ledger Hk Hpc].
      destruct (last_segment_should_end_before self (client w));
        [|ledger Hk Hpc].
      destruct (should_transcribe _ _); ledger Hk Hpc.
    + apply process_audio_async_asr_inv in H.
      destruct H as (t & spt & stt & Hk & Hpc & ->).
      destruct o as [[tr|]|e]; [|ledger Hk Hpc|ledger Hk Hpc].
      destruct (tr_text tr); [|ledger Hk Hpc].
      destruct (tr_duration tr); cbv zeta; ledger Hk Hpc.
    + apply process_audio_async_send_inv in H.
      destruct H as (t & payload & tr & Hk & Hpc & ->).
      unfold after_send.
      destruct first as [|e1]; [ledger Hk Hpc|].
      destruct e1; try (ledger Hk Hpc).
      destruct second as [|e2]; [|ledger Hk Hpc].
      destruct (websocket w); ledger Hk Hpc.
Qed.

(** X8. No result without a recognition: in every run of a new session, however
    the tasks overlap, the results sent as text are at most as many as the
    calls of the recogniser that are no longer awaited. *)
Theorem results_need_recognition (env : Environ) (u j c : string)
    (rate width : Z) (lst now : Q) (w0 w : session) (es : list event) :
  new_session env u j c rate width lst now = Some w0 ->
  run w0 es = Some w ->
  (length (results (sent w)) + count_delivering (tasks w)
   <= length (transcribed w))%nat.
Proof.
  intros H0 Hrun.
  assert (Hinit : (length (results (sent w0)) + count_delivering (tasks w0)
                   <= length (transcribed w0))%nat).
  { destruct (new_session_initial _ _ _ _ _ _ _ _ _ H0)
      as (-> & -> & -> & _). cbn. lia. }
  clear H0. revert w0 Hinit Hrun.
  induction es as [|e es IH]; intros w0 Hinit Hrun.
  - injection Hrun as <-. exact Hinit.
  - cbn [run] in Hrun.
    destruct (step w0 e) as [w1|] eqn:Hstep; [|discriminate].
    apply (IH w1); [|exact Hrun].
    apply (step_ledger w0 e w1 Hstep Hinit).
Qed.

Lemma results_need_recognition_witness :
  exists w0 w,
    fresh_session = Some w0
    /\ run w0 two_recognitions = Some w
    /\ (length (results (sent w)) + count_delivering (tasks w)
        <= length (transcribed w))%nat.
Proof.
  eexists. eexists.
  split; [vm_compute; reflexivity|].
  match goal with
  | |- run ?W ?ES = _ /\ _ =>
      split; [vm_compute; reflexivity|];
      refine (results_need_recognition no_environ "user" "job" "connection"
                10 2 0 100 W _ ES _ _); vm_compute; reflexivity
  end.
Defined.

(** ** The guard as a state machine *)

Lemma flag_of_update_strategy w j f i :
  flag_of (update_strategy j f w) i
  = if decide (i = j)
    then Strategy.processing_flag <$> (f <$> strategies w !! j)
    else flag_of w i.
Proof.
  unfold flag_of. rewrite update_strategy_strategies.
  destruct (decide (i = j)) as [->|Hne].
  - destruct (strategies w !! j) as [s|] eqn:Es.
    + rewrite list_lookup_insert_eq by (eapply lookup_lt_Some; eauto).
      reflexivity.
    + rewrite Es. reflexivity.
  - destruct (strategies w !! j); [|reflexivity].
    rewrite list_lookup_insert_ne by congruence. reflexivity.
Qed.

Lemma flag_of_keep w w' j f :
  strategies w' = strategies (update_strategy j f w) ->
  (forall s, Strategy.processing_flag (f s) = Strategy.processing_flag s) ->
  forall i, flag_of w' i = flag_of w i.
Proof.
  intros Hs Hf i.
  transitivity (flag_of (update_strategy j f w) i).
  { unfold flag_of. rewrite Hs. reflexivity. }
  rewrite flag_of_update_strategy.
  destruct (decide (i = j)) as [->|]; [|reflexivity].
  unfold flag_of. destruct (strategies w !! j); cbn; [|reflexivity].
  rewrite Hf. reflexivity.
Qed.

Lemma flag_of_reset w w' j :
  strategies w'
  = strategies (update_strategy j (Strategy.set_processing_flag false) w) ->
  (forall i, i <> j -> flag_of w' i = flag_of w i)
  /\ (is_Some (flag_of w j) -> flag_of w' j = Some false).
Proof.
  intros Hs.
  assert (H : forall i, flag_of w' i
                        = flag_of (update_strategy j
                                     (Strategy.set_processing_flag false) w) i)
    by (intros i; unfold flag_of; rewrite Hs; reflexivity).
  split.
  - intros i Hne. rewrite H, flag_of_update_strategy.
    destruct (decide (i = j)); [contradiction | reflexivity].
  - intros [b Hb]. rewrite H, flag_of_update_strategy.
    destruct (decide (j = j)); [|contradiction].
    unfold flag_of in Hb. destruct (strategies w !! j); [|discriminate].
    reflexivity.
Qed.

(** What a resumption does to the tasks and the flags: the resumed task
    moves on, and the flags stay unless the task reaches its normal end,
    which resets the flag of its strategy. *)
Lemma resume_guard k r w w' :
  resume k r w = Some w' ->
  exists t p,
    tasks w !! k = Some t /\ in_flight t = true
    /\ tasks w' = <[k := set_pc p t]> (tasks w)
    /\ ((p <> Finished /\ forall i, flag_of w' i = flag_of w i)
        \/ (p = Finished
            /\ (forall i, i <> task_self t -> flag_of w' i = flag_of w i)
            /\ (is_Some (flag_of w (task_self t)) ->
                flag_of w' (task_self t) = Some false))).
Proof.
  assert (Hsame : forall w1, strategies w1 = strategies w ->
                             forall i, flag_of w1 i = flag_of w i)
    by (intros w1 H1 i; unfold flag_of; rewrite H1; reflexivity).
  destruct r as [now|o|o now uuid4|first second]; cbn [resume]; intros H.
  - apply process_audio_async_start_inv in H.
    destruct H as (t & Hk & Hpc & ->).
    exists t. destruct (Client.connect_time (client w)); eexists;
      (split; [exact Hk|]); (split; [in_flight_from Hpc|]);
      (split; [task_list Hk|]); left;
      (split; [discriminate | apply Hsame; proj; reflexivity]).
  - apply process_audio_async_vad_inv in H.
    destruct H as (t & spt & stt & self & Hk & Hpc & _ & ->).
    exists t.
    assert (Hfail : forall e,
              exists p, tasks w !! k = Some t /\ in_flight t = true
                /\ tasks (update_task k (Failed e) w)
                   = <[k := set_pc p t]> (tasks w)
                /\ ((p <> Finished
                     /\ forall i, flag_of (update_task k (Failed e) w) i
                                  = flag_of w i)
                    \/ (p = Finished
                        /\ (forall i, i <> task_self t ->
                              flag_of (update_task k (Failed e) w) i
                              = flag_of w i)
                        /\ (is_Some (flag_of w (task_self t)) ->
                            flag_of (update_task k (Failed e) w) (task_self t)
                            = Some false)))).
    { intros e. eexists. split; [exact Hk|]. split; [in_flight_from Hpc|].
      split; [task_list Hk|]. left.
      split; [discriminate | apply Hsame; proj; reflexivity]. }
    destruct o as [rs|e]; [|apply Hfail].
    destruct (last rs).
    2: { exists Finished. split; [exact Hk|]. split; [in_flight_from Hpc|].
         split; [task_list Hk|]. right. split; [reflexivity|].
         apply flag_of_reset. strategies_same. }
    destruct (last_segment_should_end_before self (client w));
      [|apply Hfail].
    destruct (should_transcribe _ _).
    + eexists. split; [exact Hk|]. split; [in_flight_from Hpc|].
      split; [task_list Hk|]. left.
      split; [discriminate | apply Hsame; proj; reflexivity].
    + exists Finished. split; [exact Hk|]. split; [in_flight_from Hpc|].
      split; [task_list Hk|]. right. split; [reflexivity|].
      apply flag_of_reset. strategies_same.
  - apply process_audio_async_asr_inv in H.
    destruct H as (t & spt & stt & Hk & Hpc & ->).
    exists t.
    assert (Hfin : exists p, tasks w !! k = Some t /\ in_flight t = true
                /\ tasks (finish_chunk k (task_self t) w)
                   = <[k := set_pc p t]> (tasks w)
                /\ ((p <> Finished
                     /\ forall i, flag_of (finish_chunk k (task_self t) w) i
                                  = flag_of w i)
                    \/ (p = Finished
                        /\ (forall i, i <> task_self t ->
                              flag_of (finish_chunk k (task_self t) w) i
                              = flag_of w i)
                        /\ (is_Some (flag_of w (task_self t)) ->
                            flag_of (finish_chunk k (task_self t) w)
                              (task_self t) = Some false)))).
    { exists Finished. split; [exact Hk|]. split; [in_flight_from Hpc|].
      split; [task_list Hk|]. right. split; [reflexivity|].
      apply flag_of_reset. strategies_same. }
    destruct o as [[tr|]|e]; [|exact Hfin|].
    2: { eexists. split; [exact Hk|]. split; [in_flight_from Hpc|].
         split; [task_list Hk|]. left.
         split; [discriminate | apply Hsame; proj; reflexivity]. }
    destruct (tr_text tr); [|exact Hfin].
    cbv zeta.
    destruct (tr_duration tr); eexists;
      (split; [exact Hk|]); (split; [in_flight_from Hpc|]);
      (split; [task_list Hk|]); left;
      (split; [discriminate|]);
      apply (flag_of_keep w _ (task_self t)
               (Strategy.set_start_time (Some now)));
      try strategies_same; reflexivity.
  - apply process_audio_async_send_inv in H.
    destruct H as (t & payload & tr & Hk & Hpc & ->).
    exists t.
    assert (Hfin : forall f,
              exists p, tasks w !! k = Some t /\ in_flight t = true
                /\ tasks (after_send k t payload f w)
                   = <[k := set_pc p t]> (tasks w)
                /\ ((p <> Finished
                     /\ forall i, flag_of (after_send k t payload f w) i
                                  = flag_of w i)
                    \/ (p = Finished
                        /\ (forall i, i <> task_self t ->
                              flag_of (after_send k t payload f w) i
                              = flag_of w i)
                        /\ (is_Some (flag_of w (task_self t)) ->
                            flag_of (after_send k t payload f w)
                              (task_self t) = Some false)))).
    { intros f. unfold after_send.
      exists Finished. split; [exact Hk|]. split; [in_flight_from Hpc|].
      split; [task_list Hk|]. right. split; [reflexivity|].
      apply flag_of_reset. strategies_same. }
    assert (Hfail : forall e,
              exists p, tasks w !! k = Some t /\ in_flight t = true
                /\ tasks (update_task k (Failed e) w)
                   = <[k := set_pc p t]> (tasks w)
                /\ ((p <> Finished
                     /\ forall i, flag_of (update_task k (Failed e) w) i
                                  = flag_of w i)
                    \/ (p = Finished
                        /\ (forall i, i <> task_self t ->
                              flag_of (update_task k (Failed e) w) i
                              = flag_of w i)
                        /\ (is_Some (flag_of w (task_self t)) ->
                            flag_of (update_task k (Failed e) w) (task_self t)
                            = Some false)))).
    { intros e. eexists. split; [exact Hk|]. split; [in_flight_from Hpc|].
      split; [task_list Hk|]. left.
      split; [discriminate | apply Hsame; proj; reflexivity]. }
    destruct first as [|e1]; [apply Hfin|].
    destruct e1; try apply Hfail.
    destruct second as [|e2]; [apply Hfin | apply Hfail].
Qed.

Lemma flag_of_insert w w' i self s' :
  strategies w !! i = Some self ->
  strategies w' = <[i := s']> (strategies w) ->
  flag_of w' i = Some (Strategy.processing_flag s')
  /\ forall j, j <> i -> flag_of w' j = flag_of w j.
Proof.
  intros Hs Hs'. unfold flag_of. rewrite Hs'. split.
  - rewrite list_lookup_insert_eq by (eapply lookup_lt_Some; eauto).
    reflexivity.
  - intros j Hne. rewrite list_lookup_insert_ne by congruence. reflexivity.
Qed.

Lemma process_audio_guard i now w :
  let w' := process_audio i now w in
  (tasks w' = tasks w /\ forall j, flag_of w' j = flag_of w j)
  \/ exists t, tasks w' = tasks w ++ [t] /\ task_pc t = Created
       /\ is_Some (flag_of w (task_self t))
       /\ flag_of w' (task_self t) = Some true
       /\ forall j, j <> task_self t -> flag_of w' j = flag_of w j.
Proof.
  cbv zeta.
  destruct (strategies w !! i) as [self|] eqn:Es.
  2: { unfold process_audio. rewrite Es. left. auto. }
  destruct (exceeds_chunk self (client w)) eqn:Hex.
  - destruct (process_audio_promotes i now w self Es Hex)
      as (_ & _ & Ht & _ & Hstr).
    right. eexists. split; [exact Ht|]. split; [reflexivity|].
    cbn [task_self].
    destruct (flag_of_insert w _ i self _ Es Hstr) as [H1 H2].
    split; [unfold flag_of; rewrite Es; eauto|].
    split; [exact H1 | exact H2].
  - destruct (process_audio_waits i now w self Es Hex)
      as (_ & _ & Ht & _ & Hstr).
    left. split; [exact Ht|].
    destruct (flag_of_insert w _ i self _ Es Hstr) as [H1 H2].
    intros j. destruct (decide (j = i)) as [->|Hne]; [|auto].
    rewrite H1. unfold flag_of. rewrite Es. reflexivity.
Qed.

Lemma handle_binary_guard now data w :
  let w' := handle_binary now data w in
  (tasks w' = tasks w /\ forall j, flag_of w' j = flag_of w j)
  \/ exists t, tasks w' = tasks w ++ [t] /\ task_pc t = Created
       /\ is_Some (flag_of w (task_self t))
       /\ flag_of w' (task_self t) = Some true
       /\ forall j, j <> task_self t -> flag_of w' j = flag_of w j.
Proof.
  cbv zeta. unfold handle_binary, Client_process_audio.
  destruct data as [|b data].
  - cbn [pipelines set_client]. destruct (pipelines w).
    + apply (process_audio_guard _ now (set_client (client w) w)).
    + left. auto.
  - unfold Client.append_audio_data.
    destruct (Py.truediv _ _); [|left; auto].
    cbn [pipelines set_client]. destruct (pipelines w).
    + match goal with
      | |- context [process_audio ?i now ?w1] =>
          apply (process_audio_guard i now w1)
      end.
    + left. auto.
Qed.

Lemma handle_config_guard d r w :
  tasks (handle_config d r w) = tasks w
  /\ forall j, flag_of (handle_config d r w) j = flag_of w j
               \/ (flag_of w j = None
                   /\ flag_of (handle_config d r w) j = Some false).
Proof.
  unfold handle_config, update_config.
  destruct (config_data_empty d).
  - destruct r; split; auto.
  - destruct (create_buffering_strategy _ _ _) as [s|e] eqn:Es;
      [|split; auto].
    assert (Hflag : Strategy.processing_flag s = false).
    { unfold create_buffering_strategy in Es.
      destruct (String.eqb _ _); [|discriminate].
      unfold SilenceAtEndOfChunk_init in Es.
      destruct (float_of _); [|discriminate].
      destruct (float_of _); [|discriminate].
      injection Es as <-. reflexivity. }
    assert (H : forall j,
              Strategy.processing_flag <$> (strategies w ++ [s]) !! j
              = flag_of w j
              \/ (flag_of w j = None
                  /\ Strategy.processing_flag <$> (strategies w ++ [s]) !! j
                     = Some false)).
    { intros j. unfold flag_of.
      destruct (lt_eq_lt_dec j (length (strategies w))) as [[Hlt| ->]|Hgt].
      - left. rewrite lookup_app_l by exact Hlt. reflexivity.
      - right. rewrite lookup_ge_None_2 by lia.
        rewrite lookup_app_r, Nat.sub_diag by lia. cbn.
        rewrite Hflag. auto.
      - left. rewrite !lookup_ge_None_2; [reflexivity | lia |].
        rewrite length_app. cbn. lia. }
    destruct r; split; try reflexivity; exact H.
Qed.

Lemma guarded_keep w w' :
  tasks w' = tasks w ->
  (forall j, flag_of w' j = flag_of w j
             \/ (flag_of w j = None /\ flag_of w' j = Some false)) ->
  guarded w -> guarded w'.
Proof.
  intros Ht Hf [Hv Hb Hfl]. split.
  - intros k t Hk. rewrite Ht in Hk. specialize (Hv k t Hk).
    destruct (Hf (task_self t)) as [E|[_ E]]; rewrite E; eauto.
  - intros i (k & t & Hk & Hi & Hin). rewrite Ht in Hk.
    assert (Hbusy : busy w i) by (exists k, t; auto).
    destruct (Hf i) as [E|[Hnone _]]; [rewrite E; auto|].
    rewrite (Hb i Hbusy) in Hnone. discriminate.
  - intros i Hi.
    assert (Hw : flag_of w i = Some true)
      by (destruct (Hf i) as [E|[_ E]]; rewrite E in Hi;
          [exact Hi | discriminate]).
    destruct (Hfl i Hw) as [(k & t & Hk & H1 & H2)|(k & t & Hk & H1 & H2)];
      [left | right]; exists k, t; rewrite Ht; auto.
Qed.

Lemma guarded_spawn w w' t :
  quiescent w = true ->
  tasks w' = tasks w ++ [t] -> task_pc t = Created ->
  is_Some (flag_of w (task_self t)) ->
  flag_of w' (task_self t) = Some true ->
  (forall j, j <> task_self t -> flag_of w' j = flag_of w j) ->
  guarded w -> guarded w'.
Proof.
  intros Hq Ht Hpc Hsome Htrue Hother [Hv Hb Hfl].
  pose proof (proj1 (quiescent_spec w) Hq) as Hnone.
  assert (Hflag : forall j, is_Some (flag_of w j) -> is_Some (flag_of w' j)).
  { intros j Hj. destruct (decide (j = task_self t)) as [->|Hne].
    - rewrite Htrue. eauto.
    - rewrite Hother by exact Hne. exact Hj. }
  split.
  - intros k t0 Hk. rewrite Ht in Hk. apply lookup_snoc_Some in Hk.
    destruct Hk as [[_ Hk]|[_ <-]]; eauto.
  - intros i (k & t0 & Hk & Hi & Hin). rewrite Ht in Hk.
    apply lookup_snoc_Some in Hk. destruct Hk as [[_ Hk]|[_ <-]].
    + rewrite (Hnone k t0 Hk) in Hin. discriminate.
    + rewrite <- Hi. exact Htrue.
  - intros i Hi. destruct (decide (i = task_self t)) as [->|Hne].
    + left. exists (length (tasks w)), t. rewrite Ht.
      split; [apply list_lookup_middle; reflexivity|].
      split; [reflexivity|]. unfold in_flight. rewrite Hpc. reflexivity.
    + rewrite Hother in Hi by exact Hne.
      destruct (Hfl i Hi) as [(k & t0 & Hk & Hs & Hin)
                             |(k & t0 & Hk & Hs & Hin)].
      * left. exists k, t0. rewrite Ht.
        split; [apply lookup_app_l_Some; exact Hk | auto].
      * right. exists k, t0. rewrite Ht.
        split; [apply lookup_app_l_Some; exact Hk | auto].
Qed.

Lemma guarded_retask w w' k t p :
  sole_in_flight w ->
  tasks w !! k = Some t -> in_flight t = true ->
  tasks w' = <[k := set_pc p t]> (tasks w) ->
  ((p <> Finished /\ forall i, flag_of w' i = flag_of w i)
   \/ (p = Finished
       /\ (forall i, i <> task_self t -> flag_of w' i = flag_of w i)
       /\ (is_Some (flag_of w (task_self t)) ->
           flag_of w' (task_self t) = Some false))) ->
  guarded w -> guarded w'.
Proof.
  intros Hsole Hk Hin Ht Hcase [Hv Hb Hfl].
  assert (Hlt : (k < length (tasks w))%nat) by (eapply lookup_lt_Some; eauto).
  assert (Hk' : tasks w' !! k = Some (set_pc p t))
    by (rewrite Ht; apply list_lookup_insert_eq; exact Hlt).
  assert (Hlook : forall j tj, tasks w' !! j = Some tj ->
                    (j = k /\ tj = set_pc p t)
                    \/ (j <> k /\ tasks w !! j = Some tj)).
  { intros j tj Hj. rewrite Ht in Hj.
    apply list_lookup_insert_Some in Hj.
    destruct Hj as [(-> & <- & _)|[Hne Hj]]; auto. }
  assert (Hkeep : forall j tj, j <> k -> tasks w !! j = Some tj ->
                               tasks w' !! j = Some tj).
  { intros j tj Hne Hj. rewrite Ht, list_lookup_insert_ne by congruence.
    exact Hj. }
  assert (Hidle : forall j tj, j <> k -> tasks w !! j = Some tj ->
                               in_flight tj = false).
  { intros j tj Hne Hj. destruct (in_flight tj) eqn:E; [|reflexivity].
    exfalso. apply Hne. eapply Hsole; eauto. }
  assert (Hbroken : forall i, broken w i -> broken w' i).
  { intros i (j & tj & Hj & Hs & Hf). exists j, tj.
    split; [|auto]. apply Hkeep; [|exact Hj].
    intros ->. assert (tj = t) by congruence. subst tj.
    unfold failed in Hf. unfold in_flight in Hin.
    destruct (task_pc t); discriminate. }
  assert (Hself : is_Some (flag_of w (task_self t))) by eauto.
  split.
  - intros j tj Hj.
    assert (Hold : is_Some (flag_of w (task_self tj))).
    { destruct (Hlook j tj Hj) as [[-> ->]|[_ Hj']]; eauto. }
    destruct Hcase as [[_ Hsame]|(_ & Hother & Hreset)].
    + rewrite Hsame. exact Hold.
    + destruct (decide (task_self tj = task_self t)) as [E|Hne].
      * rewrite E, Hreset by exact Hself. eauto.
      * rewrite Hother by exact Hne. exact Hold.
  - intros i (j & tj & Hj & Hs & Hf).
    destruct (Hlook j tj Hj) as [[-> ->]|[Hne Hj']].
    2: { rewrite (Hidle j tj Hne Hj') in Hf. discriminate. }
    cbn [task_self set_pc] in Hs.
    destruct Hcase as [[_ Hsame]|(-> & _)]; [|discriminate].
    rewrite Hsame. apply Hb. exists k, t. auto.
  - intros i Hi.
    assert (Hold : flag_of w i = Some true -> busy w' i \/ broken w' i).
    { intros Hw. destruct (Hfl i Hw) as [(j & tj & Hj & Hs & Hf)|Hbr];
        [|auto].
      assert (j = k) by (eapply Hsole; eauto). subst j.
      assert (tj = t) by congruence. subst tj.
      destruct Hcase as [[Hnf _]|(-> & Hother & Hreset)].
      - destruct p as [|spt stt|spt stt|pl tr| |e]; try contradiction;
          try (left; eexists k, _; split; [exact Hk'|]; auto; fail).
        right. exists k, (set_pc (Failed e) t). auto.
      - exfalso. rewrite <- Hs, Hreset in Hi by exact Hself. discriminate. }
    destruct Hcase as [[_ Hsame]|(-> & Hother & Hreset)].
    + apply Hold. rewrite <- Hsame. exact Hi.
    + destruct (decide (i = task_self t)) as [->|Hne].
      * rewrite Hreset in Hi by exact Hself. discriminate.
      * apply Hold. rewrite <- Hother by exact Hne. exact Hi.
Qed.

Lemma step_guarded w e w' :
  sole_in_flight w /\ guarded w ->
  step w e = Some w' ->
  (is_audio e = true -> quiescent w = true) ->
  sole_in_flight w' /\ guarded w'.
Proof.
  intros [Hsole Hg] H Hq.
  destruct e as [now data|d r|k r]; cbn [step] in H.
  - destruct (receiving w); [|discriminate]. injection H as <-.
    specialize (Hq eq_refl).
    destruct (handle_binary_guard now data w)
      as [[Ht Hf]|(t & Ht & Hpc & Hsome & Htrue & Hother)].
    + split.
      * unfold sole_in_flight. rewrite Ht. exact Hsole.
      * apply (guarded_keep w _ Ht); auto.
    + split.
      * apply (spawn_quiescent w _ t Hq Ht Hpc).
      * apply (guarded_spawn w _ t Hq Ht Hpc Hsome Htrue Hother Hg).
  - destruct (receiving w); [|discriminate]. injection H as <-.
    destruct (handle_config_guard d r w) as [Ht Hf].
    split.
    + unfold sole_in_flight. rewrite Ht. exact Hsole.
    + apply (guarded_keep w _ Ht Hf Hg).
  - destruct (resume_guard k r w w' H) as (t & p & Hk & Hin & Ht & Hcase).
    split.
    + apply (retask w w' k t p Hsole Hk Hin Ht).
    + apply (guarded_retask w w' k t p Hsole Hk Hin Ht Hcase Hg).
Qed.

(** X9. As long as audio is received only while no task is in flight, the
    flag follows the tasks: a strategy object with a task in flight has
    [processing_flag] set, and, when no task has ended with an exception, a
    set flag means that a task of that strategy is in flight.  So the flag of
    every strategy is false whenever no task is in flight. *)
Theorem guard_tracks_tasks (env : Environ) (u j c : string)
    (rate width : Z) (lst now : Q) (w0 w : session) (es : list event) :
  new_session env u j c rate width lst now = Some w0 ->
  run w0 es = Some w ->
  one_at_a_time w0 es = true ->
  forall i : nat,
    (busy w i -> flag_of w i = Some true)
    /\ (no_failure w = true -> flag_of w i = Some true -> busy w i).
Proof.
  intros H0 Hrun Hone.
  assert (Hinit : sole_in_flight w0 /\ guarded w0).
  { destruct (new_session_initial _ _ _ _ _ _ _ _ _ H0)
      as (Ht & _ & _ & _ & _ & _ & _ & _ & s & Hs & _ & Hflag).
    split.
    - intros a b ta tb Ha. rewrite Ht in Ha. discriminate.
    - split.
      + intros k t Hk. rewrite Ht in Hk. discriminate.
      + intros i (k & t & Hk & _). rewrite Ht in Hk. discriminate.
      + intros i Hi. exfalso. unfold flag_of in Hi. rewrite Hs in Hi.
        destruct i as [|i]; cbn in Hi; [|discriminate].
        rewrite Hflag in Hi. discriminate. }
  clear H0.
  assert (Hend : sole_in_flight w /\ guarded w).
  { revert w0 Hinit Hrun Hone.
    induction es as [|e es IH]; intros w0 Hinit Hrun Hone.
    - injection Hrun as <-. exact Hinit.
    - cbn [run one_at_a_time] in *.
      destruct (step w0 e) as [w1|] eqn:Hstep; [|discriminate].
      apply andb_true_iff in Hone. destruct Hone as [Hq Hone].
      apply (IH w1); [|exact Hrun|exact Hone].
      apply (step_guarded w0 e w1 Hinit Hstep).
      intros Ha. rewrite Ha in Hq. exact Hq. }
  destruct Hend as [_ [Hv Hb Hfl]].
  intros i. split; [apply Hb|].
  intros Hnf Hi. destruct (Hfl i Hi) as [Hbusy|(k & t & Hk & _ & Hf)];
    [exact Hbusy|].
  rewrite (proj1 (no_failure_spec w) Hnf k t Hk) in Hf. discriminate.
Qed.

Lemma guard_tracks_tasks_witness :
  exists w0 w,
    fresh_session = Some w0
    /\ run w0 (firstn 3 two_recognitions) = Some w
    /\ one_at_a_time w0 (firstn 3 two_recognitions) = true
    /\ flag_of w 0 = Some true
    /\ busy w 0.
Proof.
  eexists. eexists.
  split; [vm_compute; reflexivity|].
  match goal with
  | |- run ?W ?ES = _ /\ _ =>
      split; [vm_compute; reflexivity|];
      split; [vm_compute; reflexivity|];
      split; [vm_compute; reflexivity|];
      match goal with
      | |- busy ?W' _ =>
          refine (proj2 (guard_tracks_tasks no_environ "user" "job"
                           "connection" 10 2 0 100 W W' ES _ _ _ 0%nat) _ _);
          vm_compute; reflexivity
      end
  end.
Defined.

(** * The list of connected clients *)

Lemma remove_client_length (client_id : string) (l : list Client.t) :
  (length (Registry.remove_client client_id l) <= length l)%nat.
Proof.
  induction l as [|c l IH]; cbn; [lia|].
  destruct (String.eqb _ _); cbn; lia.
Qed.

Lemma admission_length (env : Environ) (token : option string)
    (fresh : Admission.Fresh) (l : list Client.t) :
  (length l <= Admission.max_streaming_count Admission.settings)%nat ->
  (length (snd (Admission.streaming_stt_recognization env token fresh l))
   <= Admission.max_streaming_count Admission.settings)%nat.
Proof.
  intros Hl. unfold Admission.streaming_stt_recognization.
  destruct (Admission._validate_token token) as [acts [user_id|]]; [|exact Hl].
  destruct (Nat.leb_spec (Admission.max_streaming_count Admission.settings)
              (length l)) as [Hfull|Hroom]; [exact Hl|].
  destruct (new_session _ _ _ _ _ _ _ _); [|exact Hl].
  cbn [snd]. rewrite length_app. cbn [length]. lia.
Qed.

(** X10. The list of connected clients never grows beyond [max_streaming_count]:
    whatever connections arrive (with or without a token, whatever the
    environment) and whatever sessions end, in any order, a list within the
    limit stays within the limit. *)
Theorem connected_clients_bounded (rs : list Registry.request)
    (connected_clients : list Client.t) :
  (length connected_clients
   <= Admission.max_streaming_count Admission.settings)%nat ->
  (length (Registry.serve_all connected_clients rs)
   <= Admission.max_streaming_count Admission.settings)%nat.
Proof.
  unfold Registry.serve_all.
  revert connected_clients.
  induction rs as [|r rs IH]; intros l Hl; [exact Hl|].
  cbn [fold_left]. apply IH.
  destruct r as [env token fresh|client_id]; cbn [Registry.serve].
  - apply admission_length, Hl.
  - pose proof (remove_client_length client_id l). lia.
Qed.

Lemma connected_clients_bounded_witness :
  (length (Registry.serve_all []
     (repeat (Registry.Connect no_environ (Some "a"%string) (fresh_n 1)) 12
      ++ [Registry.Disconnect "a"]))
   <= Admission.max_streaming_count Admission.settings)%nat.
Proof.
  apply (connected_clients_bounded
           (repeat (Registry.Connect no_environ (Some "a"%string) (fresh_n 1)) 12
            ++ [Registry.Disconnect "a"]) []).
  cbn. lia.
Defined.

Lemma new_session_client_id (env : Environ) (u j c : string) (rate width : Z)
    (lst now : Q) (w : session) :
  new_session env u j c rate width lst now = Some w ->
  Client.client_id (client w) = u
  /\ Client.connection_id (client w) = Some c
  /\ Client.job_id (client w) = j
  /\ Client.sampling_rate (client w) = rate
  /\ Client.samples_width (client w) = width
  /\ Client.buffer (client w) = []
  /\ Client.scratch_buffer (client w) = []
  /\ Client.transcript (client w) = [].
Proof.
  unfold new_session, Client_init.
  destruct (create_buffering_strategy _ _ _); [|discriminate].
  intros [= <-]. cbn. repeat split.
Qed.

Lemma admission_admits (env : Environ) (token : option string)
    (fresh : Admission.Fresh) (cs : list Client.t) :
  Admission.creates_client
    (fst (Admission.streaming_stt_recognization env token fresh cs)) = true ->
  exists user_id w,
    token = Some user_id /\ user_id <> ""%string
    /\ (length cs < Admission.max_streaming_count Admission.settings)%nat
    /\ new_session env user_id (Admission.job_id fresh)
         (Admission.connection_id fresh) 16000 2 0 (Admission.now fresh)
       = Some w
    /\ Admission.streaming_stt_recognization env token fresh cs
       = ([Admission.accept;
           Admission.send_text_starting (Admission.connection_id fresh);
           Admission.create_task_notify_ready (Admission.connection_id fresh)
             (Admission.task_id fresh);
           Admission.handle_audio w], cs ++ [client w]).
Proof.
  unfold Admission.streaming_stt_recognization, Admission._validate_token.
  destruct token as [t|]; [|discriminate].
  destruct (String.eqb_spec t "") as [->|Ht]; [discriminate|].
  destruct (Nat.leb_spec (Admission.max_streaming_count Admission.settings)
              (length cs)) as [Hfull|Hroom]; [discriminate|].
  destruct (new_session _ _ _ _ _ _ _ _) as [w|] eqn:E; [|discriminate].
  intros _. exists t, w. repeat split; auto.
Qed.

(** X11. A connection is admitted exactly when its token is present and not
    empty, fewer than [max_streaming_count] clients are connected and the
    client can be constructed.  It is then answered with the starting
    message only, and its client (16 kHz, 16-bit samples, the token as
    client id, the drawn connection id, empty buffers) is appended at the end
    of the list of connected clients; in every other case the list is left
    as it is and exactly one answer with code 400 is scheduled. *)
Theorem admission_decided (env : Environ) (token : option string)
    (fresh : Admission.Fresh) (connected_clients : list Client.t) :
  let out := Admission.streaming_stt_recognization env token fresh
               connected_clients in
  (Admission.creates_client (fst out) = true ->
     exists user_id c,
       token = Some user_id /\ user_id <> ""%string
       /\ (length connected_clients
           < Admission.max_streaming_count Admission.settings)%nat
       /\ snd out = connected_clients ++ [c]
       /\ Admission.rejections (fst out) = []
       /\ Client.client_id c = user_id
       /\ Client.connection_id c = Some (Admission.connection_id fresh)
       /\ Client.sampling_rate c = 16000%Z
       /\ Client.samples_width c = 2%Z
       /\ Client.buffer c = [] /\ Client.scratch_buffer c = [])
  /\ (Admission.creates_client (fst out) = false ->
        snd out = connected_clients
        /\ exists r, Admission.rejections (fst out) = [r]
                     /\ Admission.code r = Admission.ResponseCode.BAD_REQUEST)
  /\ (token = None \/ token = Some ""%string ->
        out = ([Admission.accept;
                Admission.create_task_send_text
                  {| Admission.code := Admission.ResponseCode.BAD_REQUEST;
                     Admission.description := "token is required" |}],
               connected_clients))
  /\ (forall user_id w,
        token = Some user_id -> user_id <> ""%string ->
        (length connected_clients
         < Admission.max_streaming_count Admission.settings)%nat ->
        new_session env user_id (Admission.job_id fresh)
          (Admission.connection_id fresh) 16000 2 0 (Admission.now fresh)
        = Some w ->
        Admission.creates_client (fst out) = true).
Proof.
  intros out. split; [|split; [|split]].
  - intros Hc. subst out.
    destruct (admission_admits _ _ _ _ Hc) as (u & w & -> & Hu & Hlen & Hw & ->).
    destruct (new_session_client_id _ _ _ _ _ _ _ _ _ Hw)
      as (H1 & H2 & _ & H4 & H5 & H6 & H7 & _).
    exists u, (client w). cbn [fst snd]. repeat split; auto.
  - subst out.
    unfold Admission.streaming_stt_recognization, Admission._validate_token.
    destruct token as [t|].
    + destruct (String.eqb t "").
      * intros _. split; [reflexivity|]. eexists. split; reflexivity.
      * destruct (_ <=? _)%nat.
        -- intros _. split; [reflexivity|]. eexists. split; reflexivity.
        -- destruct (new_session _ _ _ _ _ _ _ _); [discriminate|].
           intros _. split; [reflexivity|]. eexists. split; reflexivity.
    + intros _. split; [reflexivity|]. eexists. split; reflexivity.
  - subst out. intros [->| ->]; reflexivity.
  - subst out. intros u w -> Hu Hlen Hw.
    unfold Admission.streaming_stt_recognization, Admission._validate_token.
    destruct (String.eqb_spec u "") as [->|_]; [contradiction|].
    destruct (Nat.leb_spec (Admission.max_streaming_count Admission.settings)
                (length connected_clients)) as [Hfull|_]; [lia|].
    rewrite Hw. reflexivity.
Qed.

Lemma remove_client_absent (client_id : string) (l : list Client.t) :
  Forall (fun c => Client.client_id c <> client_id) l ->
  Registry.remove_client client_id l = l.
Proof.
  induction 1 as [|c l Hc _ IH]; [reflexivity|].
  cbn. destruct (String.eqb_spec (Client.client_id c) client_id);
    [contradiction|]. now rewrite IH.
Qed.

Lemma remove_client_first (client_id : string) (c : Client.t)
    (before after : list Client.t) :
  Forall (fun c => Client.client_id c <> client_id) before ->
  Client.client_id c = client_id ->
  Registry.remove_client client_id (before ++ c :: after) = before ++ after.
Proof.
  intros Hb Hc. induction Hb as [|b before Hb _ IH]; cbn.
  - rewrite Hc, String.eqb_refl. reflexivity.
  - destruct (String.eqb_spec (Client.client_id b) client_id);
      [contradiction|]. now rewrite IH.
Qed.

(** X12. The cleanup at the end of [handle_audio] removes at most one entry of the
    list of connected clients: the first one whose client id is the ending
    session's, the other entries keeping their order; with no such entry the
    list is unchanged. *)
Theorem cleanup_removes_first_match (client_id : string)
    (connected_clients : list Client.t) :
  (Forall (fun c => Client.client_id c <> client_id) connected_clients
   /\ Registry.remove_client client_id connected_clients = connected_clients)
  \/ (exists c before after,
        connected_clients = before ++ c :: after
        /\ Client.client_id c = client_id
        /\ Forall (fun c => Client.client_id c <> client_id) before
        /\ Registry.remove_client client_id connected_clients
           = before ++ after).
Proof.
  induction connected_clients as [|c l IH].
  - left. split; [constructor|reflexivity].
  - destruct (String.eqb_spec (Client.client_id c) client_id) as [E|N].
    + right. exists c, [], l. repeat split; auto.
      cbn. rewrite E, String.eqb_refl. reflexivity.
    + destruct IH as [[Hall Hrm]|(c' & before & after & -> & Hc' & Hb & Hrm)].
      * left. split; [constructor; assumption|].
        apply remove_client_absent. constructor; assumption.
      * right. exists c', (c :: before), after. repeat split; auto.
        cbn. destruct (String.eqb_spec (Client.client_id c) client_id);
          [contradiction|]. now rewrite Hrm.
Qed.

(** X13. Admission followed by the cleanup of the admitted session.  When no
    connected client has the token as its id, the list of connected clients
    is restored.  When one has (tokens need not be unique), the cleanup
    removes the older session's entry, and the entry of the session that has
    just ended stays in the list. *)
Theorem cleanup_after_admission (env : Environ) (token : string)
    (fresh : Admission.Fresh) (connected_clients : list Client.t) :
  let out := Admission.streaming_stt_recognization env (Some token) fresh
               connected_clients in
  Admission.creates_client (fst out) = true ->
  (Forall (fun c => Client.client_id c <> token) connected_clients ->
   Registry.remove_client token (snd out) = connected_clients)
  /\ (forall c before after,
        connected_clients = before ++ c :: after ->
        Client.client_id c = token ->
        Forall (fun c => Client.client_id c <> token) before ->
        exists c', snd out = connected_clients ++ [c']
                   /\ Client.client_id c' = token
                   /\ Registry.remove_client token (snd out)
                      = before ++ after ++ [c']).
Proof.
  intros out Hc. subst out.
  destruct (admission_admits _ _ _ _ Hc) as (u & w & [= <-] & Hu & Hlen & Hw & ->).
  destruct (new_session_client_id _ _ _ _ _ _ _ _ _ Hw) as (Hid & _).
  cbn [snd]. split.
  - intros Hall.
    rewrite <- (app_nil_r connected_clients) at 2.
    apply (remove_client_first token (client w) connected_clients []); auto.
  - intros c before after -> Hct Hb.
    exists (client w). split; [reflexivity|]. split; [exact Hid|].
    rewrite <- app_assoc. cbn [app].
    rewrite (remove_client_first token c before (after ++ [client w]) Hb Hct).
    reflexivity.
Qed.

Lemma admission_decided_witness :
  exists c,
    snd (Admission.streaming_stt_recognization no_environ (Some "a"%string)
           (fresh_n 1) []) = [] ++ [c]
    /\ Client.client_id c = "a"%string.
Proof.
  destruct (proj1 (admission_decided no_environ (Some "a"%string)
                     (fresh_n 1) []))
    as (u & c & Hu & _ & _ & Hout & _ & Hid & _).
  - vm_compute. reflexivity.
  - exists c. split; [exact Hout|].
    injection Hu as <-. exact Hid.
Defined.

Lemma cleanup_after_admission_witness :
  Registry.remove_client "a"
    (snd (Admission.streaming_stt_recognization no_environ (Some "a"%string)
            (fresh_n 2) [example_client [] []]))
  = [example_client [] []].
Proof.
  apply (proj1 (cleanup_after_admission no_environ "a" (fresh_n 2)
                  [example_client [] []] eq_refl)).
  repeat constructor. discriminate.
Defined.

(** * File names and time stamps *)

Lemma string_app_inv_head (p s1 s2 : string) :
  (p ++ s1 = p ++ s2)%string -> s1 = s2.
Proof.
  induction p as [|a p IH]; cbn; [auto|].
  intros [= H]. auto.
Qed.

Lemma list_ascii_of_string_app (s1 s2 : string) :
  list_ascii_of_string (s1 ++ s2)
  = (list_ascii_of_string s1 ++ list_ascii_of_string s2)%list.
Proof.
  induction s1 as [|a s1 IH]; cbn; [reflexivity|]. now rewrite IH.
Qed.

Lemma string_app_inv_tail (s1 s2 t : string) :
  (s1 ++ t = s2 ++ t)%string -> s1 = s2.
Proof.
  intros H. apply (f_equal list_ascii_of_string) in H.
  rewrite !list_ascii_of_string_app in H.
  apply app_inv_tail in H.
  rewrite <- (string_of_list_ascii_of_string s1),
          <- (string_of_list_ascii_of_string s2).
  now rewrite H.
Qed.

Lemma string_length_app (s1 s2 : string) :
  String.length (s1 ++ s2) = (String.length s1 + String.length s2)%nat.
Proof.
  induction s1 as [|a s1 IH]; cbn; [reflexivity|]. now rewrite IH.
Qed.

Lemma str_inj (z1 z2 : Z) : Fmt.str z1 = Fmt.str z2 -> z1 = z2.
Proof.
  unfold Fmt.str. intros H.
  apply (f_equal NilEmpty.int_of_string) in H.
  rewrite !NilEmpty.isi in H. injection H as H.
  rewrite <- (DecimalZ.of_to z1), <- (DecimalZ.of_to z2). now rewrite H.
Qed.

Lemma zeros_length (n : nat) : String.length (Fmt.zeros n) = n.
Proof.
  unfold Fmt.zeros. induction n as [|n IH]; cbn; [reflexivity|].
  now rewrite IH.
Qed.

(** Reading a padded number back. *)
Lemma uint_of_string_zeros (n : nat) (s : string) :
  option_map N.of_uint (NilEmpty.uint_of_string (Fmt.zeros n ++ s))
  = option_map N.of_uint (NilEmpty.uint_of_string s).
Proof.
  unfold Fmt.zeros. induction n as [|n IH]; cbn [repeat string_of_list_ascii append];
    [reflexivity|].
  cbn [NilEmpty.uint_of_string]. rewrite <- IH.
  destruct (NilEmpty.uint_of_string _); reflexivity.
Qed.

Lemma format_0d_read (width : nat) (z : Z) :
  (0 <= z)%Z ->
  option_map N.of_uint (NilEmpty.uint_of_string (Fmt.format_0d width z))
  = Some (Z.to_N z).
Proof.
  intros Hz. unfold Fmt.format_0d.
  destruct (Z.ltb_spec z 0); [lia|].
  rewrite uint_of_string_zeros, NilEmpty.usu. cbn [option_map].
  rewrite DecimalN.Unsigned.of_to. f_equal. lia.
Qed.

Lemma format_0d_length (width : nat) (z : Z) :
  (0 <= z)%Z ->
  String.length (Fmt.format_0d width z)
  = Nat.max width
      (String.length (NilEmpty.string_of_uint (N.to_uint (Z.abs_N z)))).
Proof.
  intros Hz. unfold Fmt.format_0d.
  destruct (Z.ltb_spec z 0); [lia|].
  rewrite string_length_app, zeros_length. lia.
Qed.

(** X14. [Client.get_file_name] tells the chunks of a client apart: two clients
    with the same id get the same name only at the same value of
    [file_counter]; so the name changes with every increment of the
    counter. *)
Theorem get_file_name_injective (c1 c2 : Client.t) :
  Client.client_id c1 = Client.client_id c2 ->
  get_file_name c1 = get_file_name c2 ->
  Client.file_counter c1 = Client.file_counter c2.
Proof.
  unfold get_file_name. intros -> H.
  apply string_app_inv_head in H.
  apply (string_app_inv_head "_") in H.
  apply string_app_inv_tail in H.
  apply str_inj in H. lia.
Qed.

Lemma get_file_name_injective_witness :
  Client.file_counter (example_client [] [])
  = Client.file_counter (example_client (bytes 2) []).
Proof.
  apply (get_file_name_injective (example_client [] [])
           (example_client (bytes 2) [])); reflexivity.
Defined.

(** X15. [Client.get_chunk_file_name], which pads [chunk_save_counter] with
    zeros to six digits, tells the counters of a client apart: two clients
    with the same id get the same name only at the same value of the
    counter, also beyond six digits. *)
Theorem get_chunk_file_name_injective (c1 c2 : Client.t) :
  Client.client_id c1 = Client.client_id c2 ->
  get_chunk_file_name c1 = get_chunk_file_name c2 ->
  Client.chunk_save_counter c1 = Client.chunk_save_counter c2.
Proof.
  unfold get_chunk_file_name. intros -> H.
  apply string_app_inv_head in H.
  apply (string_app_inv_head "_chunk_") in H.
  apply string_app_inv_tail in H.
  apply (f_equal (fun s => option_map N.of_uint (NilEmpty.uint_of_string s)))
    in H.
  rewrite !format_0d_read in H by lia.
  injection H as H. lia.
Qed.

Lemma get_chunk_file_name_injective_witness :
  Client.chunk_save_counter (example_client [] [])
  = Client.chunk_save_counter (example_client (bytes 2) []).
Proof.
  apply (get_chunk_file_name_injective (example_client [] [])
           (example_client (bytes 2) [])); reflexivity.
Defined.





(** * The text filters of [utils] *)

Lemma prefix_app (x b : string) : String.prefix x (x ++ b) = true.
Proof.
  induction x as [|a x IH]; cbn; [now destruct b|].
  destruct (ascii_dec a a); [exact IH | contradiction].
Qed.

Lemma prefix_split (x s : string) :
  String.prefix x s = true -> exists b, s = (x ++ b)%string.
Proof.
  revert x. induction s as [|c s IH]; intros [|a x]; cbn; try discriminate.
  - intros _. exists ""%string. reflexivity.
  - intros _. exists (String c s). reflexivity.
  - destruct (ascii_dec a c) as [->|]; [|discriminate].
    intros H. destruct (IH x H) as (b & ->). exists b. reflexivity.
Qed.

Lemma contains_unfold (x s : string) :
  Text.contains x s
  = String.prefix x s
    || match s with
       | EmptyString => false
       | String _ s' => Text.contains x s'
       end.
Proof. destruct s; reflexivity. Qed.

(** [sub in s] holds exactly when [s] is [sub] between two strings. *)
Lemma contains_spec (x s : string) :
  Text.contains x s = true <-> exists a b, s = (a ++ x ++ b)%string.
Proof.
  split.
  - induction s as [|c s IH]; rewrite contains_unfold.
    + rewrite orb_false_r. intros H. apply prefix_split in H.
      destruct H as (b & ->). exists ""%string, b. reflexivity.
    + intros H. apply orb_true_iff in H. destruct H as [H|H].
      * apply prefix_split in H. destruct H as (b & ->).
        exists ""%string, b. reflexivity.
      * destruct (IH H) as (a & b & ->). exists (String c a), b. reflexivity.
  - intros (a & b & ->). induction a as [|c a IH].
    + cbn [append]. rewrite contains_unfold, prefix_app. reflexivity.
    + cbn [append]. rewrite contains_unfold, IH. apply orb_true_r.
Qed.

Lemma contains_length (x s : string) :
  Text.contains x s = true -> (String.length x <= String.length s)%nat.
Proof.
  intros H. apply contains_spec in H. destruct H as (a & b & ->).
  rewrite !string_length_app. lia.
Qed.

Lemma string_length_zero (s : string) : String.length s = 0%nat -> s = ""%string.
Proof. destruct s; [reflexivity | discriminate]. Qed.

(** The chained comparison [a in b in a] is equality. *)
Lemma contains_antisym (x s : string) :
  Text.contains x s && Text.contains s x = true <-> x = s.
Proof.
  split.
  - intros H. apply andb_true_iff in H. destruct H as [H1 H2].
    apply contains_length in H2.
    apply contains_spec in H1. destruct H1 as (a & b & ->).
    rewrite !string_length_app in H2.
    assert (Ha : a = ""%string) by (apply string_length_zero; lia).
    assert (Hb : b = ""%string) by (apply string_length_zero; lia).
    subst. cbn [append].
    clear. induction x as [|c x IH]; cbn; [reflexivity|]. now rewrite <- IH.
  - intros ->.
    assert (H : Text.contains s s = true).
    { apply contains_spec. exists ""%string, ""%string. cbn [append].
      clear. induction s as [|c s IH]; cbn; [reflexivity|]. now rewrite <- IH. }
    now rewrite H.
Qed.

Lemma filter_text_keeps (text : string) :
  match Filter.filter_text text with
  | Some t => Some t = Some text
  | None => True
  end.
Proof. unfold Filter.filter_text. now destruct (existsb _ _). Qed.

(** X17. [filter_text] drops a text exactly when one of the entries of
    [ignore_text] occurs somewhere in it, and then drops it whole; a text it
    keeps is returned unchanged. *)
Theorem filter_text_drops_on_substring (text : string) :
  (Filter.filter_text text = None
   <-> exists ignore_text_str before after,
         In ignore_text_str Filter.ignore_text
         /\ text = (before ++ ignore_text_str ++ after)%string)
  /\ (Filter.filter_text text <> None -> Filter.filter_text text = Some text).
Proof.
  unfold Filter.filter_text.
  destruct (existsb _ _) eqn:E.
  - split; [|congruence]. split; [|reflexivity]. intros _.
    apply existsb_exists in E. destruct E as (x & Hin & Hx).
    apply contains_spec in Hx. destruct Hx as (a & b & ->).
    exists x, a, b. auto.
  - split; [|reflexivity]. split; [discriminate|].
    intros (x & a & b & Hin & ->).
    assert (existsb (fun i => Text.contains i (a ++ x ++ b))
              Filter.ignore_text = true); [|congruence].
    apply existsb_exists. exists x. split; [exact Hin|].
    apply contains_spec. eauto.
Qed.

Lemma filter_text_drops_on_substring_witness :
  Filter.filter_text "thanks Amara.org community" = None.
Proof.
  apply (proj2 (proj1 (filter_text_drops_on_substring
                         "thanks Amara.org community"))).
  exists "Amara.org"%string, "thanks "%string, " community"%string.
  split; [|reflexivity].
  unfold Filter.ignore_text. apply list_elem_of_In.
  repeat (first [apply list_elem_of_here | apply list_elem_of_further]).
Defined.

Lemma exact_match_spec (text : string) :
  existsb (fun ignore_text_str =>
             Text.contains ignore_text_str text
             && Text.contains text ignore_text_str) Filter.ignore_text = true
  <-> In text Filter.ignore_text.
Proof.
  rewrite existsb_exists. split.
  - intros (x & Hin & Hx). apply contains_antisym in Hx. now subst.
  - intros Hin. exists text. split; [exact Hin|]. now apply contains_antisym.
Qed.

Lemma filter_offline_segments_from_kept (filtered segments : list Filter.Segment) :
  Forall (fun s => ~ In (Filter.seg_text s) Filter.ignore_text) segments ->
  Filter.filter_offline_segments_from filtered segments
  = inl (filtered ++ segments).
Proof.
  intros H. revert filtered.
  induction H as [|s l Hs _ IH]; intros filtered;
    cbn [Filter.filter_offline_segments_from].
  - now rewrite app_nil_r.
  - destruct (existsb _ _) eqn:E.
    + apply exact_match_spec in E. contradiction.
    + rewrite IH, <- app_assoc. reflexivity.
Qed.

Lemma filter_offline_segments_from_raises (filtered segments : list Filter.Segment) :
  Forall (fun s => Filter.seg_attr_text s = None) segments ->
  Exists (fun s => In (Filter.seg_text s) Filter.ignore_text) segments ->
  Filter.filter_offline_segments_from filtered segments
  = inr Utils.AttributeError.
Proof.
  intros Hd. revert filtered.
  induction Hd as [|s l Hs Hd IH]; intros filtered Hex.
  - inversion Hex.
  - cbn [Filter.filter_offline_segments_from].
    destruct (existsb _ _) eqn:E.
    + now rewrite Hs.
    + apply IH. inversion Hex as [? ? Hin|]; subst; [|assumption].
      apply exact_match_spec in Hin. congruence.
Qed.

Lemma filter_offline_segments_from_returns
    (filtered segments out : list Filter.Segment) :
  Forall (fun s => Filter.seg_attr_text s = None) segments ->
  Filter.filter_offline_segments_from filtered segments = inl out ->
  out = filtered ++ segments.
Proof.
  intros Hd. revert filtered.
  induction Hd as [|s l Hs Hd IH]; intros filtered;
    cbn [Filter.filter_offline_segments_from].
  - intros [= <-]. now rewrite app_nil_r.
  - destruct (existsb _ _).
    + rewrite Hs. discriminate.
    + intros H. apply IH in H. now rewrite <- app_assoc in H.
Qed.

(** X18. [filter_offline_segments] tests for equality, not for occurrence: a list
    in which no segment's text is itself an entry of [ignore_text] is returned
    as it is, even when a text contains an entry.  When a segment's text is
    an entry and the segments are dictionaries (they have no attribute
    [text]), the call raises [AttributeError] while it formats the warning:
    on dictionaries the function never returns a shorter list. *)
Theorem filter_offline_segments_exact_match (segments : list Filter.Segment) :
  (Forall (fun s => ~ In (Filter.seg_text s) Filter.ignore_text) segments ->
   Filter.filter_offline_segments segments = inl segments)
  /\ (Forall (fun s => Filter.seg_attr_text s = None) segments ->
      (Exists (fun s => In (Filter.seg_text s) Filter.ignore_text) segments ->
       Filter.filter_offline_segments segments = inr Utils.AttributeError)
      /\ (forall filtered,
            Filter.filter_offline_segments segments = inl filtered ->
            filtered = segments)).
Proof.
  unfold Filter.filter_offline_segments. split; [|intros Hd; split].
  - intros H. now rewrite filter_offline_segments_from_kept.
  - intros Hex. now apply filter_offline_segments_from_raises.
  - intros filtered Hf.
    rewrite <- (app_nil_l segments).
    now apply filter_offline_segments_from_returns.
Qed.

Lemma filter_offline_segments_exact_match_witness :
  Filter.filter_offline_segments
    [ {| Filter.seg_start := 0; Filter.seg_end := 1;
         Filter.seg_text := "thanks Amara.org community";
         Filter.seg_attr_text := None |} ]
  = inl [ {| Filter.seg_start := 0; Filter.seg_end := 1;
             Filter.seg_text := "thanks Amara.org community";
             Filter.seg_attr_text := None |} ].
Proof.
  apply (proj1 (filter_offline_segments_exact_match _)).
  constructor; [|constructor].
  cbn. intros H. repeat (destruct H as [H|H]; [discriminate|]). exact H.
Defined.

(** * The recogniser *)

(** X19. [FasterWhisperASR.transcribe] never raises; it answers [None] exactly
    when the audio could not be saved, the first pass raised, or the first
    pass found no segment and the pass without the voice filter raised or
    found none either.  Otherwise the text it returns is the stripped texts
    of the segments of the pass it used, joined by single spaces, whether or
    not an entry of [ignore_text] occurs in it: the text filter never changes
    the answer.  The duration is the end of the last word when there are
    words, else the end of the last segment, and is not shifted by
    [last_start_time], while the words' times are. *)
Theorem transcribe_outcome (strip : string -> string) (client : Client.t)
    (save : bool) (first retry : option (list FasterWhisperASR.Segment
                                         * FasterWhisperASR.Info)) :
  (FasterWhisperASR.transcribe strip client save first retry = None
   <-> save = false \/ first = None
       \/ exists info, first = Some ([], info)
                       /\ (retry = None \/ exists info', retry = Some ([], info')))
  /\ forall r,
       FasterWhisperASR.transcribe strip client save first retry = Some r ->
       exists segments info,
         segments <> []
         /\ (first = Some (segments, info)
             \/ (exists info0, first = Some ([], info0))
                /\ retry = Some (segments, info))
         /\ FasterWhisperASR.text r
            = String.concat " "
                (map (fun s => strip (FasterWhisperASR.seg_text s)) segments)
         /\ FasterWhisperASR.duration r
            = match last (FasterWhisperASR.flatten_words segments) with
              | Some w => FasterWhisperASR.w_end w
              | None =>
                  match last segments with
                  | Some s => FasterWhisperASR.seg_end s
                  | None => None
                  end
              end
         /\ map FasterWhisperASR.end_ (FasterWhisperASR.words r)
            = map (fun w => FasterWhisperASR.or_0 (FasterWhisperASR.w_end w)
                            + Client.last_start_time client)
                (FasterWhisperASR.flatten_words segments).
Proof.
  assert (Hret : forall segments info,
            segments <> [] ->
            let r := FasterWhisperASR.to_return strip client segments info in
            FasterWhisperASR.text r
            = String.concat " "
                (map (fun s => strip (FasterWhisperASR.seg_text s)) segments)
            /\ FasterWhisperASR.duration r
               = match last (FasterWhisperASR.flatten_words segments) with
                 | Some w => FasterWhisperASR.w_end w
                 | None =>
                     match last segments with
                     | Some s => FasterWhisperASR.seg_end s
                     | None => None
                     end
                 end
            /\ map FasterWhisperASR.end_ (FasterWhisperASR.words r)
               = map (fun w => FasterWhisperASR.or_0 (FasterWhisperASR.w_end w)
                               + Client.last_start_time client)
                   (FasterWhisperASR.flatten_words segments)).
  { intros segments info _ r. subst r.
    unfold FasterWhisperASR.to_return.
    cbn [FasterWhisperASR.text FasterWhisperASR.duration FasterWhisperASR.words].
    split; [|split; [reflexivity|]].
    - pose proof (filter_text_keeps
                    (FasterWhisperASR.join_text strip segments)) as Hf.
      destruct (Filter.filter_text _) as [t|]; [|reflexivity].
      now injection Hf as ->.
    - rewrite map_map. reflexivity. }
  unfold FasterWhisperASR.transcribe.
  destruct save; [|split; [split; auto|discriminate]].
  destruct first as [[segments info]|]; [|split; [split; auto|discriminate]].
  destruct segments as [|s segments]; cbn [length Nat.eqb].
  - destruct retry as [[segments' info']|].
    + destruct segments' as [|s' segments']; cbn [length Nat.eqb].
      * split; [|discriminate]. split; [|reflexivity]. intros _.
        right. right. exists info. split; [reflexivity|]. right. eauto.
      * split.
        -- split; [discriminate|].
           intros [H|[H|(i & _ & [H|(i' & H)])]]; discriminate.
        -- intros r [= <-]. exists (s' :: segments'), info'.
           split; [discriminate|]. split; [right; eauto|].
           apply Hret. discriminate.
    + cbn [length Nat.eqb]. split; [|discriminate]. split; [|reflexivity].
      intros _. right. right. exists info. auto.
  - split.
    + split; [discriminate|].
      intros [H|[H|(i & H & _)]]; discriminate.
    + intros r [= <-]. exists (s :: segments), info.
      split; [discriminate|]. split; [left; reflexivity|].
      apply Hret. discriminate.
Qed.

Lemma transcribe_outcome_witness :
  exists r,
    FasterWhisperASR.transcribe (fun s => s) (example_client [] []) true
      (Some ([example_segment "thanks Amara.org" 1], example_info)) None
    = Some r
    /\ FasterWhisperASR.text r = "thanks Amara.org"%string
    /\ FasterWhisperASR.duration r = Some 1.
Proof.
  eexists. split; [reflexivity|].
  match goal with
  | |- FasterWhisperASR.text ?R = _ /\ _ =>
      destruct (proj2 (transcribe_outcome (fun s => s) (example_client [] [])
                         true
                         (Some ([example_segment "thanks Amara.org" 1],
                                example_info)) None) R eq_refl)
        as (segments & info & _ & [H|[_ H]] & Htext & Hdur & _);
        [|discriminate]
  end.
  injection H as <- <-. split; [exact Htext | exact Hdur].
Defined.

(** X20. The session engine with the shipped recogniser.  The step that receives
    the answer of [FasterWhisperASR.transcribe] always goes through.  When
    the recogniser answers [None] (it could not save, it raised, or it found
    no segment) the chunk is finished without a result: the working buffer
    is cleared, the file counter incremented and the guard reset, and nothing
    is sent.  Otherwise the answer has a text, and the task goes on to send
    a payload that ends [duration] after its start, or ends with [TypeError]
    when the recogniser found no end time; it never ends with an exception of
    the recogniser. *)
Theorem shipped_recogniser_step (strip : string -> string) (w : session)
    (k : nat) (t : Task) (spt stt now : Q) (uuid4 : string) (save : bool)
    (first retry : option (list FasterWhisperASR.Segment
                           * FasterWhisperASR.Info)) :
  tasks w !! k = Some t ->
  task_pc t = AwaitAsr spt stt ->
  let answer := FasterWhisperASR.transcribe strip (client w) save first retry in
  exists w',
    process_audio_async_asr k (FasterWhisperASR.outcome_of answer) now uuid4 w
    = Some w'
    /\ sent w' = sent w
    /\ match answer with
       | None =>
           w' = finish_chunk k (task_self t) w
           /\ Client.scratch_buffer (client w') = []
           /\ Client.file_counter (client w')
              = S (Client.file_counter (client w))
           /\ Client.transcript (client w') = Client.transcript (client w)
       | Some r =>
           client w' = client w
           /\ tasks w' !! k
              = Some (set_pc
                        match FasterWhisperASR.duration r with
                        | Some d =>
                            AwaitSend
                              (make_payload (client w) uuid4
                                 (FasterWhisperASR.text r) stt d)
                              (FasterWhisperASR.transcription_of r)
                        | None => Failed TypeError
                        end t)
       end.
Proof.
  intros Hk Hpc answer.
  unfold process_audio_async_asr. rewrite Hk, Hpc.
  destruct answer as [r|]; cbn [FasterWhisperASR.outcome_of option_map].
  - cbn [FasterWhisperASR.transcription_of tr_text tr_duration].
    destruct (FasterWhisperASR.duration r) as [d|]; eexists;
      (split; [reflexivity|]); (split; [proj; reflexivity|]);
      (split; [proj; reflexivity|]);
      apply update_task_lookup; proj; exact Hk.
  - eexists. split; [reflexivity|].
    split; [apply finish_chunk_sent|].
    split; [reflexivity|].
    rewrite finish_chunk_client. repeat split.
Qed.

Lemma shipped_recogniser_step_witness :
  exists w w',
    run_fresh [ BinaryFrame 100 (bytes 40);
                Resume 0 (Start 100);
                Resume 0 (VadDone (VadReturns (one_interval (18 # 10)))) ]
    = Some w
    /\ process_audio_async_asr 0
         (FasterWhisperASR.outcome_of
            (FasterWhisperASR.transcribe (fun s => s) (client w) true
               (Some ([], example_info)) None)) 103 "uuid" w
       = Some w'
    /\ Client.scratch_buffer (client w') = [].
Proof.
  eexists. eexists.
  split; [vm_compute; reflexivity|].
  match goal with
  | |- process_audio_async_asr _ _ _ _ ?W = _ /\ _ =>
      pose proof (fun t spt stt H1 H2 =>
                    shipped_recogniser_step (fun s => s) W 0 t spt stt 103
                      "uuid" true (Some ([], example_info)) None H1 H2) as H
  end.
  split; [vm_compute; reflexivity|].
  edestruct H as (w' & Hstep & _ & Hans);
    [vm_compute; reflexivity | vm_compute; reflexivity |].
  cbn [FasterWhisperASR.transcribe length Nat.eqb] in Hans.
  destruct Hans as (_ & Hscratch & _).
  vm_compute in Hstep. injection Hstep as <-. exact Hscratch.
Defined.

(** * The file counter *)

Lemma process_audio_file_counter i now w :
  Client.file_counter (client (process_audio i now w))
  = Client.file_counter (client w).
Proof.
  unfold process_audio.
  destruct (strategies w !! i) as [self|]; [|reflexivity].
  destruct (exceeds_chunk self _); proj;
    destruct (Client.connect_time (client w));
    try destruct (0 <? Py.len (Client.buffer (client w)))%Z;
    try destruct (Strategy.processing_flag self); reflexivity.
Qed.

Lemma handle_binary_file_counter now data w :
  Client.file_counter (client (handle_binary now data w))
  = Client.file_counter (client w).
Proof.
  unfold handle_binary, Client_process_audio.
  destruct data as [|b data].
  - cbn [pipelines set_client]. destruct (pipelines w); [|reflexivity].
    now rewrite process_audio_file_counter.
  - unfold Client.append_audio_data.
    destruct (Py.truediv _ _); [|reflexivity].
    cbn [pipelines set_client]. destruct (pipelines w); [|reflexivity].
    now rewrite process_audio_file_counter.
Qed.

Lemma handle_config_file_counter d r w :
  Client.file_counter (client (handle_config d r w))
  = Client.file_counter (client w).
Proof.
  unfold handle_config, update_config.
  destruct (config_data_empty d).
  - destruct r; reflexivity.
  - destruct (create_buffering_strategy _ _ _); destruct r; reflexivity.
Qed.

(** The books of the file counter over one task step. *)
Lemma counter_retask w w' k t p :
  tasks w !! k = Some t ->
  tasks w' = <[k := set_pc p t]> (tasks w) ->
  (length (Client.transcript (client w')) + Client.file_counter (client w)
   <= length (Client.transcript (client w)) + Client.file_counter (client w')
   /\ Client.file_counter (client w') + (if is_delivering p then 1 else 0)
      + length (transcribed w)
      <= Client.file_counter (client w)
         + (if is_delivering (task_pc t) then 1 else 0)
         + length (transcribed w'))%nat ->
  (length (Client.transcript (client w)) <= Client.file_counter (client w)
   /\ Client.file_counter (client w) + count_delivering (tasks w)
      <= length (transcribed w))%nat ->
  (length (Client.transcript (client w')) <= Client.file_counter (client w')
   /\ Client.file_counter (client w') + count_delivering (tasks w')
      <= length (transcribed w'))%nat.
Proof.
  intros Hk Ht' Hnum Hinv. rewrite Ht'.
  pose proof (count_delivering_insert (tasks w) k t (set_pc p t) Hk) as Hc.
  cbn [task_pc set_pc] in Hc.
  destruct (is_delivering p), (is_delivering (task_pc t)); lia.
Qed.

Ltac counter Hk Hpc :=
  eapply counter_retask; [exact Hk | task_list Hk | | eassumption];
  rewrite ?finish_chunk_client, ?finish_chunk_transcribed; proj;
  rewrite ?Hpc; cbn; rewrite ?length_app; cbn; lia.

Lemma step_counter w e w' :
  step w e = Some w' ->
  (length (Client.transcript (client w)) <= Client.file_counter (client w)
   /\ Client.file_counter (client w) + count_delivering (tasks w)
      <= length (transcribed w))%nat ->
  (length (Client.transcript (client w')) <= Client.file_counter (client w')
   /\ Client.file_counter (client w') + count_delivering (tasks w')
      <= length (transcribed w'))%nat.
Proof.
  intros H Hinv.
  destruct e as [now data|d r|k r]; cbn [step] in H.
  - destruct (receiving w); [|discriminate]. injection H as <-.
    destruct (handle_binary_results now data w) as [_ ->].
    rewrite handle_binary_file_counter.
    destruct (handle_binary_tasks now data w) as [-> [-> |(t & -> & Hpc)]].
    + exact Hinv.
    + rewrite count_delivering_app. cbn. rewrite Hpc. cbn. lia.
  - destruct (receiving w); [|discriminate]. injection H as <-.
    destruct (handle_config_results d r w) as [_ ->].
    rewrite handle_config_file_counter.
    destruct (handle_config_accounts d r w) as (-> & -> & _).
    exact Hinv.
  - destruct r as [now|o|o now uuid4|first second]; cbn [resume] in H.
    + apply process_audio_async_start_inv in H.
      destruct H as (t & Hk & Hpc & ->).
      destruct (Client.connect_time (client w)); counter Hk Hpc.
    + apply process_audio_async_vad_inv in H.
      destruct H as (t & spt & stt & self & Hk & Hpc & _ & ->).
      destruct o as [rs|e]; [|counter Hk Hpc].
      destruct (last rs); [|counter Hk Hpc].
      destruct (last_segment_should_end_before self (client w));
        [|counter Hk Hpc].
      destruct (should_transcribe _ _); counter Hk Hpc.
    + apply process_audio_async_asr_inv in H.
      destruct H as (t & spt & stt & Hk & Hpc & ->).
      destruct o as [[tr|]|e]; [|counter Hk Hpc|counter Hk Hpc].
      destruct (tr_text tr); [|counter Hk Hpc].
      destruct (tr_duration tr); cbv zeta; counter Hk Hpc.
    + apply process_audio_async_send_inv in H.
      destruct H as (t & payload & tr & Hk & Hpc & ->).
      unfold after_send.
      destruct first as [|e1]; [counter Hk Hpc|].
      destruct e1; try (counter Hk Hpc).
      destruct second as [|e2]; [|counter Hk Hpc].
      destruct (websocket w); counter Hk Hpc.
Qed.

(** X21. The file counter, which names the file the recogniser works on, counts
    the chunks that were finished after a call of the recogniser: in every
    run of a new session it is at least the number of results recorded in the
    transcript, and with the tasks still between the call and the clearing it
    is at most the number of calls of the recogniser. *)
Theorem file_counter_counts_finished (env : Environ) (u j c : string)
    (rate width : Z) (lst now : Q) (w0 w : session) (es : list event) :
  new_session env u j c rate width lst now = Some w0 ->
  run w0 es = Some w ->
  (length (Client.transcript (client w)) <= Client.file_counter (client w)
   /\ Client.file_counter (client w) + count_delivering (tasks w)
      <= length (transcribed w))%nat.
Proof.
  intros H0 Hrun.
  assert (Hinit : (length (Client.transcript (client w0))
                   <= Client.file_counter (client w0)
                   /\ Client.file_counter (client w0)
                      + count_delivering (tasks w0)
                      <= length (transcribed w0))%nat).
  { unfold new_session, Client_init in H0.
    destruct (create_buffering_strategy _ _ _); [|discriminate].
    injection H0 as <-. cbn. lia. }
  clear H0. revert w0 Hinit Hrun.
  induction es as [|e es IH]; intros w0 Hinit Hrun.
  - injection Hrun as <-. exact Hinit.
  - cbn [run] in Hrun.
    destruct (step w0 e) as [w1|] eqn:Hstep; [|discriminate].
    apply (IH w1); [|exact Hrun].
    apply (step_counter w0 e w1 Hstep Hinit).
Qed.

Lemma file_counter_counts_finished_witness :
  exists w0 w,
    fresh_session = Some w0
    /\ run w0 two_recognitions = Some w
    /\ (length (Client.transcript (client w)) <= Client.file_counter (client w)
        /\ Client.file_counter (client w) + count_delivering (tasks w)
           <= length (transcribed w))%nat.
Proof.
  eexists. eexists.
  split; [vm_compute; reflexivity|].
  match goal with
  | |- run ?W ?ES = _ /\ _ =>
      split; [vm_compute; reflexivity|];
      refine (file_counter_counts_finished no_environ "user" "job"
                "connection" 10 2 0 100 W _ ES _ _); vm_compute; reflexivity
  end.
Defined.

(** * A sample rate of zero *)

(** X22. A configuration message that carries only a sample rate of zero is
    accepted and acknowledged like any other: nothing checks the value.  With
    a sample rate of zero the shipped detector divides by zero on every
    non-empty working buffer: the task ends with [ZeroDivisionError] at the
    detector, nothing is cleared, sent or recognised, and the guard of its
    strategy object is left as it is. *)
Theorem zero_sample_rate_fails_detection :
  (forall (w : session) (d : ConfigData),
      receiving w = true ->
      config_data_empty d = true ->
      exists w1,
        step w (ConfigFrame d (Some 0%Z)) = Some w1
        /\ Client.sampling_rate (client w1) = 0%Z
        /\ sent w1 = sent w ++ [ConfigAck]
        /\ receiving w1 = true)
  /\ (forall (w : session) (k : nat) (t : Task) (spt stt : Q)
             (self : Strategy.t) (min_duration : Q),
        tasks w !! k = Some t ->
        task_pc t = AwaitVad spt stt ->
        strategies w !! task_self t = Some self ->
        Client.sampling_rate (client w) = 0%Z ->
        Client.scratch_buffer (client w) <> [] ->
        exists w',
          process_audio_async_vad k
            (SimpleVAD.detect_activity min_duration (client w)) w = Some w'
          /\ tasks w' !! k = Some (set_pc (Failed ZeroDivisionError) t)
          /\ client w' = client w
          /\ strategies w' = strategies w
          /\ sent w' = sent w
          /\ transcribed w' = transcribed w).
Proof.
  split.
  - intros w d Hrec Hd. cbn [step]. rewrite Hrec.
    unfold handle_config. rewrite Hd.
    eexists. split; [reflexivity|]. cbn. auto.
  - intros w k t spt stt self md Hk Hpc Hs Hrate Hne.
    unfold process_audio_async_vad. rewrite Hk, Hpc, Hs.
    unfold SimpleVAD.detect_activity. rewrite Hrate.
    destruct (Client.scratch_buffer (client w)) as [|b l] eqn:E;
      [contradiction|].
    assert (Hlen : (Py.len (b :: l) =? 0)%Z = false).
    { apply Z.eqb_neq. unfold Py.len. cbn [length]. lia. }
    rewrite Hlen. cbn [Z.mul Py.truediv]. unfold Py.truediv. cbn [Z.eqb].
    eexists. split; [reflexivity|].
    split; [apply update_task_lookup; exact Hk|].
    proj. repeat split.
Qed.

Lemma zero_sample_rate_fails_detection_witness :
  exists w w',
    run_fresh [ ConfigFrame only_sample_rate (Some 0%Z);
                BinaryFrame 100 (bytes 2);
                Resume 0 (Start 100) ] = Some w
    /\ process_audio_async_vad 0
         (SimpleVAD.detect_activity SimpleVAD.default_min_duration (client w))
         w = Some w'
    /\ client w' = client w.
Proof.
  eexists. eexists.
  split; [vm_compute; reflexivity|].
  split; [vm_compute; reflexivity|].
  match goal with
  | |- client ?W' = client ?W =>
      pose proof (fun t spt stt self =>
                    proj2 zero_sample_rate_fails_detection W 0%nat t spt stt
                      self SimpleVAD.default_min_duration) as H;
      edestruct H as (w'' & Hstep & _ & Hc & _);
        [ vm_compute; reflexivity | vm_compute; reflexivity
        | vm_compute; reflexivity | reflexivity | cbn; discriminate | ]
  end.
  vm_compute in Hstep. injection Hstep as <-. exact Hc.
Defined.
